(** * Blacklist dashboard (app.py): entry store, player lookup, mutation flows

    A shallow embedding of [app.py].  Python strings are sequences of Unicode
    code points, dictionaries are insertion-ordered association lists with
    unique keys, and the script's effects (session state, worksheet, lookup
    cache, outgoing requests, rendered elements) are threaded through an
    explicit state-and-exception monad. *)

From Stdlib Require Import List NArith ZArith Bool Lia String Ascii DecimalString.
Import ListNotations.

Set Implicit Arguments.

(* ================================================================== *)
(** * Python strings *)

(** A [str] is a sequence of code points. *)
Definition str := list N.

Definition bytes_of_string (s : string) : list N :=
  map N_of_ascii (list_ascii_of_string s).

(** Source literals are written in UTF-8; [utf8_decode] recovers their code
    points. *)
Fixpoint utf8_decode (bs : list N) : str :=
  match bs with
  | [] => []
  | b :: r =>
      if (b <? 128)%N then b :: utf8_decode r
      else if (b <? 224)%N then
        match r with
        | b2 :: r' => ((b - 192) * 64 + (b2 - 128))%N :: utf8_decode r'
        | _ => []
        end
      else if (b <? 240)%N then
        match r with
        | b2 :: b3 :: r' =>
            ((b - 224) * 4096 + (b2 - 128) * 64 + (b3 - 128))%N :: utf8_decode r'
        | _ => []
        end
      else
        match r with
        | b2 :: b3 :: b4 :: r' =>
            ((b - 240) * 262144 + (b2 - 128) * 4096 + (b3 - 128) * 64 + (b4 - 128))%N
              :: utf8_decode r'
        | _ => []
        end
  end.

Definition lit (s : string) : str := utf8_decode (bytes_of_string s).

Fixpoint str_eqb (a b : str) : bool :=
  match a, b with
  | [], [] => true
  | x :: a', y :: b' => (x =? y)%N && str_eqb a' b'
  | _, _ => false
  end.

(** [t.startswith(p)] *)
Fixpoint startswith (t p : str) : bool :=
  match p, t with
  | [], _ => true
  | x :: p', y :: t' => (x =? y)%N && startswith t' p'
  | _ :: _, [] => false
  end.

(** [q in s] on strings: [q] occurs in [s] as a contiguous run. *)
Fixpoint contains (s q : str) : bool :=
  startswith s q ||
  match s with
  | [] => false
  | _ :: r => contains r q
  end.

(** [str.isspace] on one code point: the whitespace that [strip()] removes. *)
Definition isspace (c : N) : bool :=
  ((9 <=? c) && (c <=? 13) || (28 <=? c) && (c <=? 32)
   || (c =? 133) || (c =? 160) || (c =? 5760)
   || (8192 <=? c) && (c <=? 8202)
   || (c =? 8232) || (c =? 8233) || (c =? 8239) || (c =? 8287)
   || (c =? 12288))%N.

Fixpoint lstrip (s : str) : str :=
  match s with
  | [] => []
  | c :: r => if isspace c then lstrip r else s
  end.

Definition rstrip (s : str) : str := rev (lstrip (rev s)).

(** [s.strip()] *)
Definition strip (s : str) : str := rstrip (lstrip s).

Definition hash : N := 35.
Definition comma : N := 44.

(** [s.split(",")]: never returns the empty list; the empty string splits
    into one empty piece. *)
Fixpoint split (sep : N) (s : str) : list str :=
  match s with
  | [] => [[]]
  | c :: r =>
      if (c =? sep)%N then [] :: split sep r
      else match split sep r with
           | [] => [[c]]
           | w :: ws => (c :: w) :: ws
           end
  end.

(** [sep.join(l)] *)
Fixpoint join (sep : str) (l : list str) : str :=
  match l with
  | [] => []
  | [x] => x
  | x :: r => x ++ sep ++ join sep r
  end.

(** Case conversion of the ASCII letters. *)
Definition ascii_upper (c : N) : N :=
  if ((97 <=? c) && (c <=? 122))%N then (c - 32)%N else c.

Definition ascii_lower (c : N) : N :=
  if ((65 <=? c) && (c <=? 90))%N then (c + 32)%N else c.

(* ================================================================== *)
(** * Exceptions and results *)

Inductive exn : Type :=
| HTTPError (status : Z)
| JSONDecodeError
| ConnectionError
| UnicodeEncodeError
| KeyError (k : str)
| AttributeError
| GSpreadException.

Inductive result (A : Type) : Type :=
| Ok (a : A)
| Raise (e : exn).
Arguments Ok {A} a.
Arguments Raise {A} e.

(* ================================================================== *)
(** * Dictionaries *)

(** A Python [dict] keyed by strings: pairs in insertion order.  Its
    representation invariant is that no key occurs twice. *)
Definition dict (V : Type) := list (str * V).

Definition keys {V} (d : dict V) : list str := map fst d.

Definition wf_dict {V} (d : dict V) : Prop := NoDup (keys d).

Fixpoint dict_get {V} (k : str) (d : dict V) : option V :=
  match d with
  | [] => None
  | (k', v) :: r => if str_eqb k k' then Some v else dict_get k r
  end.

(** [d[k] = v]: overwrite in place, or append a new key. *)
Fixpoint dict_set {V} (k : str) (v : V) (d : dict V) : dict V :=
  match d with
  | [] => [(k, v)]
  | (k', v') :: r =>
      if str_eqb k k' then (k, v) :: r else (k', v') :: dict_set k v r
  end.

Fixpoint dict_remove {V} (k : str) (d : dict V) : dict V :=
  match d with
  | [] => []
  | (k', v') :: r =>
      if str_eqb k k' then r else (k', v') :: dict_remove k r
  end.

(** [d.pop(k)]: the dictionary without [k]; [KeyError] when [k] is absent. *)
Definition dict_pop {V} (k : str) (d : dict V) : result (dict V) :=
  match dict_get k d with
  | Some _ => Ok (dict_remove k d)
  | None => Raise (KeyError k)
  end.

(** [{k: v for ...}] and [dict(pairs)]: successive insertion. *)
Definition dict_of_pairs {V} (l : list (str * V)) : dict V :=
  fold_left (fun d kv => dict_set (fst kv) (snd kv) d) l [].

(** [d[k]] *)
Definition dict_index {V} (k : str) (d : dict V) : result V :=
  match dict_get k d with
  | Some v => Ok v
  | None => Raise (KeyError k)
  end.

(* ================================================================== *)
(** * Data model *)

(** One blacklist entry: [{"reasons": [...], "note": ...}]. *)
Record Entry : Type := mkEntry { reasons : list str; note : str }.

(** Values of a decoded JSON object of the player API. *)
Inductive json : Type :=
| JNull
| JBool (b : bool)
| JNum (z : Z)
| JStr (s : str).

(** The player object returned by [fetch_player]; [{}] is [[]]. *)
Definition info := dict json.

(** What [session.get] hands back: the status code and the decoded body
    ([None] when [r.json()] cannot decode it). *)
Record Response : Type := mkResponse { status_code : Z; body : option info }.

(** The worksheet holds a grid of text cells, row by row. *)
Definition grid := list (list str).

Inductive sheet_call : Type :=
| Clear
| Update (values : grid).

(** Elements the script renders. *)
Inductive element : Type :=
| Header (text : str)
| TextInput (label : str)
| Form (name : str)
| FormSubmitButton (label : str)
| MultiSelect (label : str) (options : list str)
| TextArea (label : str)
| ErrorBox (msg : str)
| SuccessBox (msg : str).

(** Everything outside the script's control: the Unicode case tables beyond
    ASCII, the configured password and the remote player API. *)
Class Env : Type := {
  (** full uppercase mapping of a code point above 127 *)
  upper_u : N -> list N;
  (** lowercase mapping of a code point above 127 standing between the
      given left and right context *)
  lower_u : str -> N -> str -> list N;
  (** [os.getenv("BLACKLIST_PASSWORD", "Debu")] *)
  PASSWORD : str;
  (** outcome of a GET on the given URL (sent with [HEADERS]) at a given
      time; [Raise] when no response arrives *)
  http_get : Z -> str -> result Response
}.

(** The state the script reads and writes. *)
Record World : Type := mkWorld {
  entries : dict Entry;             (* st.session_state.entries *)
  sheet : grid;                     (* cells of the worksheet *)
  sheet_calls : list sheet_call;    (* calls received by the worksheet *)
  cache : list (str * (Z * info));  (* memo table of fetch_player *)
  requests : list (Z * str);        (* GET requests sent: time and URL *)
  ui : list element                 (* elements rendered so far *)
}.

Definition set_entries (d : dict Entry) (w : World) : World :=
  mkWorld d (sheet w) (sheet_calls w) (cache w) (requests w) (ui w).

Definition set_sheet (g : grid) (c : sheet_call) (w : World) : World :=
  mkWorld (entries w) g (sheet_calls w ++ [c]) (cache w) (requests w) (ui w).

Definition set_cache (c : list (str * (Z * info))) (w : World) : World :=
  mkWorld (entries w) (sheet w) (sheet_calls w) c (requests w) (ui w).

Definition log_request (t : Z) (url : str) (w : World) : World :=
  mkWorld (entries w) (sheet w) (sheet_calls w) (cache w)
          (requests w ++ [(t, url)]) (ui w).

Definition add_ui (e : element) (w : World) : World :=
  mkWorld (entries w) (sheet w) (sheet_calls w) (cache w) (requests w)
          (ui w ++ [e]).

(* ================================================================== *)
(** * The monad of script fragments

    A fragment runs from a world and either returns or raises; the world it
    leaves behind is kept in both cases, as Python keeps mutations made
    before an exception. *)

Definition M (A : Type) : Type := World -> result A * World.

Definition ret {A} (a : A) : M A := fun w => (Ok a, w).

Definition raise {A} (e : exn) : M A := fun w => (Raise e, w).

Definition bind {A B} (m : M A) (k : A -> M B) : M B :=
  fun w =>
    match m w with
    | (Ok a, w') => k a w'
    | (Raise e, w') => (Raise e, w')
    end.

Definition lift {A} (r : result A) : M A := fun w => (r, w).

Definition get_world : M World := fun w => (Ok w, w).

Definition modify (f : World -> World) : M unit := fun w => (Ok tt, f w).

Declare Scope py_scope.
Delimit Scope py_scope with py.
Notation "x <- m ;; k" := (bind m (fun x => k))
  (at level 61, m at next level, right associativity) : py_scope.
Notation "m ;; k" := (bind m (fun _ => k))
  (at level 61, right associativity) : py_scope.
Open Scope py_scope.

Definition emit (e : element) : M unit := modify (add_ui e).

(* ================================================================== *)
(** * Google Sheets utilities *)

(** [sheet.update(values)]: the rows are written from the top-left cell over
    whatever the worksheet holds; cells outside the written range stay. *)
Definition overlay_row (new old : list str) : list str :=
  new ++ skipn (List.length new) old.

Fixpoint overlay (new old : grid) : grid :=
  match new, old with
  | [], _ => old
  | r :: new', [] => r :: new'
  | r :: new', o :: old' => overlay_row r o :: overlay new' old'
  end.

Definition sheet_clear : M unit := modify (fun w => set_sheet [] Clear w).

Definition sheet_update (values : grid) : M unit :=
  modify (fun w => set_sheet (overlay values (sheet w)) (Update values) w).

(** [sheet.get_all_records()] on a worksheet of text: the first row names
    the columns, every further row becomes a record from column name to
    cell.  This is the reading of a worksheet whose rows are as long as its
    first row, whose column names differ, whose last row is not entirely
    empty and none of whose cells reads as a number; the reading of an
    arbitrary worksheet is [Gspread.get_all_records] below, and
    [load_text_agrees] relates the two. *)
Definition get_all_records (g : grid) : list (dict str) :=
  match g with
  | [] => []
  | head :: rows => map (fun row => dict_of_pairs (combine head row)) rows
  end.

Definition parse_reasons (cell : str) : list str :=
  match cell with
  | [] => []
  | _ => split comma cell
  end.

(** The dictionary comprehension of [load_entries_from_sheet]. *)
Fixpoint entries_of_records (recs : list (dict str)) (acc : dict Entry)
  : result (dict Entry) :=
  match recs with
  | [] => Ok acc
  | r :: rest =>
      match dict_index (lit "tag") r with
      | Raise e => Raise e
      | Ok tag =>
          match dict_index (lit "reasons") r with
          | Raise e => Raise e
          | Ok rs =>
              match dict_index (lit "note") r with
              | Raise e => Raise e
              | Ok n =>
                  entries_of_records rest
                    (dict_set tag (mkEntry (parse_reasons rs) n) acc)
              end
          end
      end
  end.

Definition load_entries_from_sheet : M (dict Entry) :=
  w <- get_world ;;
  lift (entries_of_records (get_all_records (sheet w)) []).

Definition header_row : list str := [lit "tag"; lit "reasons"; lit "note"].

Definition entry_row (te : str * Entry) : list str :=
  [fst te; join (lit ",") (reasons (snd te)); note (snd te)].

Definition save_entries_to_sheet (es : dict Entry) : M unit :=
  let values := header_row :: map entry_row es in
  sheet_clear ;;
  sheet_update values.

(* ================================================================== *)
(** * The worksheet as the client library reads it *)

(** A value of a record of [get_all_records]: the text of the cell, or the
    number that text denotes when the library reads it as one. *)
Inductive cell : Type :=
| Text (s : str)
| Number (s : str).

(** Python's reading of numbers, outside the script. *)
Class Numbers : Type := {
  (** [int(s)] or [float(s)] accepts the text, which holds no underscore *)
  numeric : str -> bool;
  (** the number read from the text is zero *)
  numeric_zero : str -> bool;
  (** the numbers read from the two texts are equal *)
  same_number : str -> str -> bool
}.

(** An entry as [load_entries_from_sheet] builds it from a record. *)
Record Loaded : Type := mkLoaded { l_reasons : list str; l_note : cell }.

Module Gspread.
Section WithNumbers.
Context {G : Numbers}.

(** A cell reads as a number: it is not empty and Python accepts it. *)
Definition number_like (s : str) : bool :=
  match s with
  | [] => false
  | _ => numeric s
  end.

(** [numericise]: the empty cell stays the empty text, any other cell that
    reads as a number becomes that number. *)
Definition numericise (s : str) : cell :=
  if number_like s then Number s else Text s.

(** Equality of record values as dictionary keys: text equals text,
    numbers equal numbers of the same value. *)
Definition cell_eqb (a b : cell) : bool :=
  match a, b with
  | Text x, Text y => str_eqb x y
  | Number x, Number y => same_number x y
  | _, _ => false
  end.

(** [d[k] = v] on a dictionary keyed by record values; an equal key that is
    already there is kept. *)
Fixpoint cdict_set {V} (k : cell) (v : V) (d : list (cell * V))
  : list (cell * V) :=
  match d with
  | [] => [(k, v)]
  | (k', v') :: r =>
      if cell_eqb k k' then (k', v) :: r else (k', v') :: cdict_set k v r
  end.

(** The service hands a row over without the empty cells at its end, and
    the worksheet without the empty rows at its end. *)
Fixpoint trim_row (r : list str) : list str :=
  match r with
  | [] => []
  | c :: r' =>
      match c, trim_row r' with
      | [], [] => []
      | _, t => c :: t
      end
  end.

Fixpoint trim_rows (g : grid) : grid :=
  match g with
  | [] => []
  | r :: g' =>
      match trim_row r, trim_rows g' with
      | [], [] => []
      | t, v => t :: v
      end
  end.

(** Rows are filled with empty cells up to the longest row. *)
Definition width (g : grid) : nat :=
  fold_right (fun r m => Nat.max (List.length r) m) 0 g.

Definition pad (n : nat) (r : list str) : list str :=
  r ++ repeat (lit "") (n - List.length r).

(** [sheet.get_all_values()]: the rows as the service hands them over,
    filled up to one length. *)
Definition get_all_values (g : grid) : grid :=
  let v := trim_rows g in map (pad (width v)) v.

Fixpoint unique (l : list str) : bool :=
  match l with
  | [] => true
  | x :: r => negb (existsb (str_eqb x) r) && unique r
  end.

(** [sheet.get_all_records()]: no row, no record; otherwise the first row
    names the columns and must not name one twice, and every further row,
    with its number-like cells read as numbers, becomes a record. *)
Definition get_all_records (g : grid) : result (list (dict cell)) :=
  match get_all_values g with
  | [] => Ok []
  | head :: rows =>
      if unique head
      then Ok (map (fun row => dict_of_pairs (combine head (map numericise row)))
                   rows)
      else Raise GSpreadException
  end.

(** Truth value of a record value: the empty text and the number zero are
    false. *)
Definition truthy (c : cell) : bool :=
  match c with
  | Text [] => false
  | Text _ => true
  | Number s => negb (numeric_zero s)
  end.

(** [c.split(",")]: only text has [split]. *)
Definition cell_split (c : cell) : result (list str) :=
  match c with
  | Text s => Ok (split comma s)
  | Number _ => Raise AttributeError
  end.

(** The dictionary comprehension of [load_entries_from_sheet]: for each
    record the key [r["tag"]], then the condition [r["reasons"]], then the
    split, then [r["note"]]. *)
Fixpoint entries_of_records (recs : list (dict cell))
  (acc : list (cell * Loaded)) : result (list (cell * Loaded)) :=
  match recs with
  | [] => Ok acc
  | r :: rest =>
      match dict_index (lit "tag") r with
      | Raise e => Raise e
      | Ok tag =>
          match dict_index (lit "reasons") r with
          | Raise e => Raise e
          | Ok rs =>
              match (if truthy rs then cell_split rs else Ok []) with
              | Raise e => Raise e
              | Ok reasons =>
                  match dict_index (lit "note") r with
                  | Raise e => Raise e
                  | Ok n =>
                      entries_of_records rest
                        (cdict_set tag (mkLoaded reasons n) acc)
                  end
              end
          end
      end
  end.

Definition load_entries_from_sheet : M (list (cell * Loaded)) :=
  w <- get_world ;;
  recs <- lift (get_all_records (sheet w)) ;;
  lift (entries_of_records recs []).

End WithNumbers.
End Gspread.

(* ================================================================== *)
(** * Case conversion and URL quoting *)

Section WithEnv.
Context {E : Env}.

Definition upper_cp (c : N) : list N :=
  if (c <? 128)%N then [ascii_upper c] else upper_u c.

(** [s.upper()]: every code point is replaced by its uppercase mapping. *)
Definition upper (s : str) : str := flat_map upper_cp s.

Fixpoint lower_from (before s : str) : str :=
  match s with
  | [] => []
  | c :: r =>
      (if (c <? 128)%N then [ascii_lower c] else lower_u before c r)
        ++ lower_from (before ++ [c]) r
  end.

(** [s.lower()] *)
Definition lower (s : str) : str := lower_from [] s.

(** UTF-8 bytes of one code point; surrogates cannot be encoded. *)
Definition utf8_encode_cp (c : N) : option (list N) :=
  if (c <? 128)%N then Some [c]
  else if (c <? 2048)%N then Some [192 + c / 64; 128 + c mod 64]%N
  else if (c <? 65536)%N then
    if ((55296 <=? c) && (c <=? 57343))%N then None
    else Some [224 + c / 4096; 128 + (c / 64) mod 64; 128 + c mod 64]%N
  else if (c <? 1114112)%N then
    Some [240 + c / 262144; 128 + (c / 4096) mod 64;
          128 + (c / 64) mod 64; 128 + c mod 64]%N
  else None.

Fixpoint utf8_encode (s : str) : option (list N) :=
  match s with
  | [] => Some []
  | c :: r =>
      match utf8_encode_cp c, utf8_encode r with
      | Some b, Some bs => Some (b ++ bs)
      | _, _ => None
      end
  end.

(** Bytes that [quote] never escapes: letters, digits and [_.-~]. *)
Definition always_safe (b : N) : bool :=
  ((65 <=? b) && (b <=? 90) || (97 <=? b) && (b <=? 122)
   || (48 <=? b) && (b <=? 57)
   || (b =? 95) || (b =? 46) || (b =? 45) || (b =? 126))%N.

Definition hex_digit (d : N) : N :=
  if (d <? 10)%N then (48 + d)%N else (55 + d)%N.

Definition quote_byte (b : N) : str :=
  if always_safe b then [b] else [37; hex_digit (b / 16); hex_digit (b mod 16)]%N.

(** [quote(t, safe="")] *)
Definition quote (t : str) : result str :=
  match utf8_encode t with
  | Some bs => Ok (flat_map quote_byte bs)
  | None => Raise UnicodeEncodeError
  end.

(* ================================================================== *)
(** * Brawl Stars API calls *)

Definition encode_tag (raw : str) : result str :=
  let t := upper (strip raw) in
  let t := if negb (startswith t (lit "#")) then lit "#" ++ t else t in
  quote t.

(** [session.get(url, headers=HEADERS)] *)
Definition session_get (now : Z) (url : str) : M Response :=
  modify (log_request now url) ;;
  lift (http_get now url).

(** [r.raise_for_status()] *)
Definition raise_for_status (r : Response) : M unit :=
  if ((400 <=? status_code r) && (status_code r <? 600))%Z
  then raise (HTTPError (status_code r))
  else ret tt.

(** [r.json()] *)
Definition response_json (r : Response) : M info :=
  match body r with
  | Some i => ret i
  | None => raise JSONDecodeError
  end.

(** The body of [fetch_player], without its decorator. *)
Definition fetch_player_body (now : Z) (tag : str) : M info :=
  enc <- lift (encode_tag tag) ;;
  let url := lit "https://api.brawlstars.com/v1/players/" ++ enc in
  r <- session_get now url ;;
  if ((status_code r =? 403) || (status_code r =? 404))%Z then ret []
  else
    raise_for_status r ;;
    response_json r.

Definition ttl : Z := 600.

(** The memo table of [st.cache_data(ttl=600)]: the newest stored result for
    the argument, while it is less than [ttl] seconds old. *)
Fixpoint cache_lookup (now : Z) (tag : str) (c : list (str * (Z * info)))
  : option info :=
  match c with
  | [] => None
  | (k, (t0, v)) :: r =>
      if str_eqb tag k
      then if (now <? t0 + ttl)%Z then Some v else None
      else cache_lookup now tag r
  end.

(** [fetch_player], decorated: a fresh stored result is returned without
    running the body; otherwise the body runs and its return value is
    stored under the argument.  A call that raises stores nothing. *)
Definition fetch_player (now : Z) (tag : str) : M info :=
  w <- get_world ;;
  match cache_lookup now tag (cache w) with
  | Some v => ret v
  | None =>
      v <- fetch_player_body now tag ;;
      modify (fun w' => set_cache ((tag, (now, v)) :: cache w') w') ;;
      ret v
  end.

Definition normalize_tag (raw : str) : str :=
  let t := upper (strip raw) in
  if negb (startswith t (lit "#")) then lit "#" ++ t else t.

(* ================================================================== *)
(** * Text of interpolated values *)

(** [str(v)] as an f-string interpolates it; an absent key reads [None]. *)
Definition py_str (v : option json) : str :=
  match v with
  | None | Some JNull => lit "None"
  | Some (JBool true) => lit "True"
  | Some (JBool false) => lit "False"
  | Some (JNum z) => lit (NilZero.string_of_int (Z.to_int z))
  | Some (JStr s) => s
  end.

(* ================================================================== *)
(** * Delete handlers of the list and search modes *)

Definition browse_delete (tag : str) : M unit :=
  w <- get_world ;;
  d <- lift (dict_pop tag (entries w)) ;;
  modify (set_entries d) ;;
  w' <- get_world ;;
  save_entries_to_sheet (entries w') ;;
  emit (SuccessBox (tag ++ lit " をブラックリストから削除しました")).

Definition search_delete (tag : str) : M unit :=
  w <- get_world ;;
  d <- lift (dict_pop tag (entries w)) ;;
  modify (set_entries d) ;;
  w' <- get_world ;;
  save_entries_to_sheet (entries w') ;;
  emit (SuccessBox (tag ++ lit " を削除しました")).

(* ================================================================== *)
(** * Search mode: the filter loop *)

Definition hit : Type := (str * json * Entry)%type.

(** [q in tag.lower() or q in name.lower()]; the right operand is only
    evaluated when the left one is false, and only a string has [lower]. *)
Definition matches (q tag : str) (name : json) : M bool :=
  if contains (lower tag) q then ret true
  else match name with
       | JStr s => ret (contains (lower s) q)
       | _ => raise AttributeError
       end.

Fixpoint search_loop (now : Z) (q : str) (items : list (str * Entry))
  (hits : list hit) : M (list hit) :=
  match items with
  | [] => ret hits
  | (tag, e) :: rest =>
      i <- fetch_player now tag ;;
      let name := match dict_get (lit "name") i with
                  | Some v => v
                  | None => JStr (lit "")
                  end in
      b <- matches q tag name ;;
      search_loop now q rest (if b then hits ++ [(tag, name, e)] else hits)
  end.

(** The hits computed when the search button is pressed with [query] typed
    into the text input. *)
Definition search_hits (now : Z) (query : str) : M (list hit) :=
  let q := lower (strip query) in
  w <- get_world ;;
  search_loop now q (entries w) [].

(* ================================================================== *)
(** * Create mode *)

Inductive submit : Type :=
| SubmitLookup   (* the "名前取得" button *)
| SubmitAdd.     (* the "追加" button *)

(** What the operator has put into the widgets of the create page. *)
Record CreateInput : Type := mkCreateInput {
  in_pwd : str;
  in_tag : str;
  in_reasons : list str;
  in_note : str;
  in_submit : option submit
}.

Definition REASONS : list str :=
  [lit "代行・買い垢"; lit "人格破綻・コミュ障"; lit "神"; lit "デブ"].

(** Lines 199 to 204: the name preview. *)
Definition lookup_handler (now : Z) (raw : str) : M unit :=
  i <- fetch_player now raw ;;
  match i with
  | [] => emit (ErrorBox (lit "タグが見つかりません"))
  | _ =>
      emit (SuccessBox (py_str (dict_get (lit "tag") i) ++ lit " → `"
                        ++ py_str (dict_get (lit "name") i) ++ lit "` さん"))
  end.

(** Lines 211 to 224: the submit handler of the add form. *)
Definition add_handler (now : Z) (raw : str) (rs : list str) (nt : str)
  : M unit :=
  let tag := normalize_tag raw in
  i <- fetch_player now tag ;;
  match tag, rs with
  | [], _ | _, [] => emit (ErrorBox (lit "タグと理由は必須です"))
  | _, _ =>
      match i with
      | [] => emit (ErrorBox (lit "有効なタグを入力してください"))
      | _ =>
          modify (fun w => set_entries (dict_set tag (mkEntry rs nt) (entries w)) w) ;;
          w <- get_world ;;
          save_entries_to_sheet (entries w) ;;
          emit (SuccessBox (tag ++ lit " を追加しました："
                            ++ py_str (dict_get (lit "name") i)))
      end
  end.

Definition create_mode (now : Z) (inp : CreateInput) : M unit :=
  emit (Header (lit "➕ 新規追加")) ;;
  emit (TextInput (lit "パスワード")) ;;
  if negb (str_eqb (in_pwd inp) PASSWORD)
  then emit (ErrorBox (lit "パスワードが違います"))
  else
    emit (Form (lit "add_form")) ;;
    emit (TextInput (lit "プレイヤータグ (#なし可)")) ;;
    let raw := strip (in_tag inp) in
    emit (FormSubmitButton (lit "名前取得")) ;;
    match in_submit inp with
    | Some SubmitLookup => lookup_handler now raw
    | _ => ret tt
    end ;;
    emit (MultiSelect (lit "理由") REASONS) ;;
    emit (TextArea (lit "備考 (任意)")) ;;
    emit (FormSubmitButton (lit "追加")) ;;
    match in_submit inp with
    | Some SubmitAdd => add_handler now raw (in_reasons inp) (in_note inp)
    | _ => ret tt
    end.

End WithEnv.

(* ================================================================== *)
(** * Vocabulary of the properties *)

(** A string that does not begin, respectively end, with whitespace. *)
Definition no_lead (s : str) : Prop :=
  match s with
  | [] => True
  | c :: _ => isspace c = false
  end.

Definition no_trail (s : str) : Prop := no_lead (rev s).

(** The contiguous runs of a string: the prefixes of its suffixes. *)
Fixpoint prefixes (s : str) : list str :=
  [] :: match s with
        | [] => []
        | c :: r => map (cons c) (prefixes r)
        end.

Fixpoint substrings (s : str) : list str :=
  prefixes s ++ match s with
                | [] => []
                | _ :: r => substrings r
                end.

(** Two strings are equal when case is ignored. *)
Definition ci_equal {E : Env} (a b : str) : bool :=
  str_eqb (lower a) (lower b).

(** [q] is a case-insensitive substring of [s]: some contiguous run of [s]
    equals [q] when case is ignored. *)
Definition ci_substring {E : Env} (q s : str) : bool :=
  existsb (fun u => ci_equal u q) (substrings s).

(** The lowercase mapping of one code point in its context. *)
Definition lower_at {E : Env} (before : str) (c : N) (after : str) : list N :=
  if (c <? 128)%N then [ascii_lower c] else lower_u before c after.

(** Lowercasing acts character by character on [s]: every code point of
    [s] has the one-character lowercase [f c] whatever stands around it. *)
Definition charwise {E : Env} (f : N -> N) (s : str) : Prop :=
  forall before c after, In c s -> lower_at before c after = [f c].

(** No reason of any entry contains a comma. *)
Definition comma_free (x : dict Entry) : Prop :=
  Forall (fun te => Forall (fun r => ~ In comma r) (reasons (snd te))) x.

(** No entry has the single empty string as its whole reasons list. *)
Definition no_blank_reasons (x : dict Entry) : Prop :=
  Forall (fun te => reasons (snd te) <> [[]]) x.

(** What an entry becomes when its row is written and read back. *)
Definition reparse (e : Entry) : Entry :=
  mkEntry (parse_reasons (join (lit ",") (reasons e))) (note e).

(** The controls through which the create page mutates the list: the add
    form and everything inside it. *)
Definition mutation_control (e : element) : bool :=
  match e with
  | Form _ | FormSubmitButton _ | MultiSelect _ _ | TextArea _ => true
  | _ => false
  end.

(** The properties of the uppercase table above ASCII that normalization
    relies on: a mapping is never empty, it keeps whitespace whitespace and
    everything else non-whitespace, and its output is already uppercase. *)
Definition upper_table_ok {E : Env} : Prop :=
  forall c, (128 <= c)%N ->
    upper_u c <> [] /\
    (forall d, In d (upper_u c) -> isspace d = isspace c) /\
    upper (upper_u c) = upper_u c.

(** The display name the search loop works with: the [name] field of the
    lookup, or the empty string when the field is missing. *)
Definition name_field (i : info) : json :=
  match dict_get (lit "name") i with
  | Some v => v
  | None => JStr (lit "")
  end.

(** The outcome of a lookup from a given world. *)
Definition lookup {E : Env} (now : Z) (tag : str) (w : World) : result info :=
  fst (fetch_player now tag w).

(** The entry of the hit list for [tag], when its lookup returns. *)
Definition enriched {E : Env} (now : Z) (w : World) (te : str * Entry) : hit :=
  match lookup now (fst te) w with
  | Ok i => (fst te, name_field i, snd te)
  | Raise _ => (fst te, JStr (lit ""), snd te)
  end.

Definition name_text (h : hit) : str :=
  match snd (fst h) with
  | JStr s => s
  | _ => lit ""
  end.

(** What the body of [fetch_player] returns or raises for [tag] at time
    [now]; it does not depend on the world it runs from. *)
Definition body_result {E : Env} (now : Z) (tag : str) : result info :=
  fst (fetch_player_body now tag (mkWorld [] [] [] [] [] [])).

(** The world after the body of [fetch_player] has run: the request is on
    record, unless the tag could not be encoded into a URL. *)
Definition sent {E : Env} (now : Z) (tag : str) (w : World) : World :=
  match encode_tag tag with
  | Ok enc => log_request now (lit "https://api.brawlstars.com/v1/players/" ++ enc) w
  | Raise _ => w
  end.

(** Rendering a run of elements. *)
Definition render (l : list element) (w : World) : World :=
  fold_left (fun w' e => add_ui e w') l w.

(** What the create page shows once the password matches, up to and
    including the add button. *)
Definition add_page : list element :=
  [Header (lit "➕ 新規追加");
   TextInput (lit "パスワード");
   Form (lit "add_form");
   TextInput (lit "プレイヤータグ (#なし可)");
   FormSubmitButton (lit "名前取得");
   MultiSelect (lit "理由") REASONS;
   TextArea (lit "備考 (任意)");
   FormSubmitButton (lit "追加")].

(** What the create page shows when the password does not match. *)
Definition locked_page : list element :=
  [Header (lit "➕ 新規追加");
   TextInput (lit "パスワード");
   ErrorBox (lit "パスワードが違います")].

(** The two pages that carry a delete button. *)
Inductive delete_page : Type := ListPage | SearchPage.

Definition delete_handler (p : delete_page) : str -> M unit :=
  match p with
  | ListPage => browse_delete
  | SearchPage => search_delete
  end.

(* ================================================================== *)
(** * Sample environments and worlds *)

(** An environment whose text is ASCII only: code points above 127 have no
    case. *)
Definition ascii_env (pw : str) (api : Z -> str -> result Response) : Env :=
  {| upper_u := fun c => [c];
     lower_u := fun _ c _ => [c];
     PASSWORD := pw;
     http_get := api |}.

Definition api_500 : Z -> str -> result Response :=
  fun _ _ => Ok (mkResponse 500 None).

Definition api_404 : Z -> str -> result Response :=
  fun _ _ => Ok (mkResponse 404 None).

Definition bob : info :=
  [(lit "tag", JStr (lit "#ABC")); (lit "name", JStr (lit "Bob"))].

Definition api_200 : Z -> str -> result Response :=
  fun _ _ => Ok (mkResponse 200 (Some bob)).

Definition empty_world : World := mkWorld [] [] [] [] [] [].

Definition two_entries : dict Entry :=
  [(lit "#ABC", mkEntry [lit "神"] (lit ""));
   (lit "#XYZ", mkEntry [lit "デブ"; lit "神"] (lit "watch"))].

Definition blank_reason_entries : dict Entry :=
  [(lit "#A", mkEntry [lit ""] (lit ""))].

Definition one_entry_world : World :=
  mkWorld [(lit "#ABC", mkEntry [lit "神"] (lit ""))] [] [] [] [] [].

(** Three deployments with the default password: the API answers every
    request with status 404, with status 500, or with Bob's profile. *)
Definition env_404 : Env := ascii_env (lit "Debu") api_404.
Definition env_500 : Env := ascii_env (lit "Debu") api_500.
Definition env_200 : Env := ascii_env (lit "Debu") api_200.

(** Add-form submissions with the right password. *)
Definition submit_no_reasons : CreateInput :=
  mkCreateInput (lit "Debu") (lit "abc") [] (lit "") (Some SubmitAdd).

Definition submit_with_reason : CreateInput :=
  mkCreateInput (lit "Debu") (lit "abc") [lit "神"] (lit "") (Some SubmitAdd).

(** A submission with a wrong password. *)
Definition submit_wrong_password : CreateInput :=
  mkCreateInput (lit "debu") (lit "abc") [lit "神"] (lit "") (Some SubmitAdd).


(* ================================================================== *)
(** * Further code of the script *)

Section MoreCode.
Context {E : Env}.

(** Lines 123 to 126 and 179 to 182: the save button of the edit form,
    the same statements on the list page and on the search page. *)
Definition save_handler (tag : str) (new_reasons : list str) (new_note : str)
  : M unit :=
  w <- get_world ;;
  e <- lift (dict_index tag (entries w)) ;;
  modify (set_entries (dict_set tag (mkEntry new_reasons (note e)) (entries w))) ;;
  w <- get_world ;;
  e <- lift (dict_index tag (entries w)) ;;
  modify (set_entries (dict_set tag (mkEntry (reasons e) new_note) (entries w))) ;;
  w <- get_world ;;
  save_entries_to_sheet (entries w) ;;
  emit (SuccessBox (tag ++ lit " を更新しました")).

(** Lines 89 to 96: the rows of the list page, one lookup per entry. *)
Fixpoint browse_rows (now : Z) (items : list (str * Entry))
  : M (list (str * json * str)) :=
  match items with
  | [] => ret []
  | (tag, e) :: rest =>
      i <- fetch_player now tag ;;
      let name := match dict_get (lit "name") i with
                  | Some v => v
                  | None => JStr (lit "取得失敗")
                  end in
      rows <- browse_rows now rest ;;
      ret ((tag, name, join (lit ", ") (reasons e)) :: rows)
  end.

(** Line 97: [reset_index] numbers the rows from 0 in the column No. *)
Definition browse_table (now : Z) : M (list (nat * (str * json * str))) :=
  w <- get_world ;;
  rows <- browse_rows now (entries w) ;;
  ret (combine (seq 0 (List.length rows)) rows).

End MoreCode.

(** test_api.py, line 12: the URL the test script requests for [tag]. *)
Definition test_api_url (tag : str) : str :=
  lit "https://api.brawlstars.com/v1/players/%23" ++ tag.

(** The tag hard-wired in test_api.py, line 11. *)
Definition test_api_tag : str := lit "22PORPR98".

(** ** Vocabulary of the further properties *)

(** An identifier that carries the marker. *)
Definition marked (k : str) : Prop := startswith k (lit "#") = true.

(** A code point that UTF-8 cannot encode: a surrogate, or one beyond the
    last plane. *)
Definition unencodable (c : N) : bool :=
  ((55296 <=? c) && (c <=? 57343) || (1114112 <=? c))%N.

(** A character that may stand in a URL path segment as it is, or the
    percent sign of an escape. *)
Definition url_char (c : N) : bool := always_safe c || (c =? 37)%N.

(** A digit or an uppercase ASCII letter. *)
Definition upper_alnum (c : N) : bool :=
  ((48 <=? c) && (c <=? 57) || (65 <=? c) && (c <=? 90))%N.

(** Every stored lookup result is what the body of [fetch_player] returned
    for that argument at the time it was stored. *)
Definition cache_sound {E : Env} (w : World) : Prop :=
  Forall (fun kv => body_result (fst (snd kv)) (fst kv) = Ok (snd (snd kv)))
         (cache w).

(** The row of the list page for one entry whose lookup returned [i]. *)
Definition browse_row (i : info) (te : str * Entry) : str * json * str :=
  (fst te,
   match dict_get (lit "name") i with
   | Some v => v
   | None => JStr (lit "取得失敗")
   end,
   join (lit ", ") (reasons (snd te))).

(** The same, with the lookup made from a given world. *)
Definition browse_row_of {E : Env} (now : Z) (w : World) (te : str * Entry)
  : str * json * str :=
  match lookup now (fst te) w with
  | Ok i => browse_row i te
  | Raise _ => browse_row [] te
  end.

(** A profile whose name is not text, and the deployment serving it. *)
Definition odd_profile : info := [(lit "name", JNum 7)].

Definition api_odd : Z -> str -> result Response :=
  fun _ _ => Ok (mkResponse 200 (Some odd_profile)).

Definition env_odd : Env := ascii_env (lit "Debu") api_odd.

Definition submit_preview : CreateInput :=
  mkCreateInput (lit "Debu") (lit "abc") [] (lit "") (Some SubmitLookup).

Definition submit_nothing : CreateInput :=
  mkCreateInput (lit "Debu") (lit "abc") [] (lit "") None.

(** A worksheet with two rows for one tag. *)
Definition duplicate_rows_world : World :=
  mkWorld []
    [[lit "tag"; lit "reasons"; lit "note"];
     [lit "#A"; lit "x"; lit "old"];
     [lit "#A"; lit "y"; lit "new"]]
    [] [] [] [].

(** A worksheet whose header has no tag column. *)
Definition headless_world : World :=
  mkWorld [] [[lit "id"; lit "reasons"; lit "note"]; [lit "#A"; lit "x"; lit "n"]]
    [] [] [] [].

(** ** The reader: vocabulary and samples *)

(** A text-keyed dictionary seen as one keyed by record values. *)
Definition text_keys {V} (d : dict V) : list (cell * V) :=
  map (fun kv => (Text (fst kv), snd kv)) d.

(** A mapping of the session as a loaded mapping. *)
Definition as_loaded (x : dict Entry) : list (cell * Loaded) :=
  text_keys (map (fun te => (fst te, mkLoaded (reasons (snd te)) (Text (note (snd te))))) x).

(** No cell that [save_entries_to_sheet] writes for the mapping reads as a
    number: no tag, no joined reasons, no note. *)
Definition text_cells {G : Numbers} (x : dict Entry) : Prop :=
  Forall (fun te => Gspread.number_like (fst te) = false /\
                    Gspread.number_like (join (lit ",") (reasons (snd te))) = false /\
                    Gspread.number_like (note (snd te)) = false) x.

(** A reasons cell the load can take apart: text, or the number zero. *)
Definition splittable {G : Numbers} (r : str) : bool :=
  negb (Gspread.number_like r) || numeric_zero r.

(** Every joined reasons cell of the mapping can be taken apart. *)
Definition reasons_readable {G : Numbers} (x : dict Entry) : Prop :=
  Forall (fun te => splittable (join (lit ",") (reasons (snd te))) = true) x.

(** The three cells of a row. *)
Definition row3 (row : str * str * str) : list str :=
  let '(t, r, n) := row in [t; r; n].

(** A row of three empty cells. *)
Definition blank3 (row : str * str * str) : bool :=
  match row with
  | ([], [], []) => true
  | _ => false
  end.

(** The rows up to the last one that is not entirely empty: the rows the
    service hands over. *)
Fixpoint live (rows : list (str * str * str)) : list (str * str * str) :=
  match rows with
  | [] => []
  | row :: rest =>
      match live rest with
      | [] => if blank3 row then [] else [row]
      | l => row :: l
      end
  end.

(** The last row, if there is one, is not entirely empty. *)
Fixpoint ends_written (rows : list (str * str * str)) : bool :=
  match rows with
  | [] => true
  | row :: rest =>
      match rest with
      | [] => negb (blank3 row)
      | _ => ends_written rest
      end
  end.

(** The record [get_all_records] makes of a three-cell row under the header
    tag, reasons, note. *)
Definition record3 {G : Numbers} (row : str * str * str) : dict cell :=
  let '(t, r, n) := row in
  [(lit "tag", Gspread.numericise t);
   (lit "reasons", Gspread.numericise r);
   (lit "note", Gspread.numericise n)].

(** The key and entry a three-cell row loads as when its reasons cell can
    be taken apart: a text cell is split on commas, the empty cell and the
    number zero give no reasons. *)
Definition loaded_row {G : Numbers} (row : str * str * str) : cell * Loaded :=
  let '(t, r, n) := row in
  (Gspread.numericise t,
   mkLoaded (if Gspread.number_like r then [] else parse_reasons r)
            (Gspread.numericise n)).

(** Successive assignment into a mapping keyed by record values. *)
Definition loaded_of_pairs {G : Numbers} (l : list (cell * Loaded))
  : list (cell * Loaded) :=
  fold_left (fun d kv => Gspread.cdict_set (fst kv) (snd kv) d) l [].

(** The cells of the row written for an entry. *)
Definition saved_row (te : str * Entry) : str * str * str :=
  (fst te, join (lit ",") (reasons (snd te)), note (snd te)).

(** The last row written for the mapping is not entirely empty: its tag,
    its joined reasons or its note has a character. *)
Definition tail_kept (x : dict Entry) : Prop :=
  ends_written (map saved_row x) = true.

(** A sample of number reading: the decimal digit strings are numbers. *)
Definition is_digit (c : N) : bool := ((48 <=? c) && (c <=? 57))%N.

Definition digits_value (s : str) : N :=
  fold_left (fun v c => (10 * v + (c - 48))%N) s 0%N.

Definition decimal_numbers : Numbers :=
  {| numeric := fun s => match s with [] => false | _ => forallb is_digit s end;
     numeric_zero := fun s => forallb (fun c => (c =? 48)%N) s;
     same_number := fun a b => (digits_value a =? digits_value b)%N |}.

(** A mapping whose reasons and note read as numbers. *)
Definition numeric_entries : dict Entry :=
  [(lit "#A", mkEntry [lit "5"] (lit "12"))].

(** A mapping whose only row is written as three empty cells. *)
Definition blank_entries : dict Entry :=
  [(lit "", mkEntry [] (lit ""))].

Definition two_entry_world : World :=
  mkWorld two_entries [] [] [] [] [].


(** A worksheet whose first row names a column twice. *)
Definition repeated_header_world : World :=
  mkWorld [] [[lit "tag"; lit "tag"; lit "note"]; [lit "#A"; lit "x"; lit "n"]]
    [] [] [] [].

(** A deployment whose API answers 304 with a profile in the body. *)
Definition api_304 : Z -> str -> result Response :=
  fun _ _ => Ok (mkResponse 304 (Some bob)).

Definition env_304 : Env := ascii_env (lit "Debu") api_304.

(** A deployment with Greek text: capital alpha lowercases to alpha, and
    capital sigma to the final sigma when it ends the string after another
    character, to the plain sigma elsewhere. *)
Definition greek_lower (before : str) (c : N) (after : str) : list N :=
  if (c =? 931)%N then
    match rev before, after with
    | _ :: _, [] => [962%N]
    | _, _ => [963%N]
    end
  else if (c =? 913)%N then [945%N] else [c].

Definition greek_profile : info := [(lit "name", JStr (lit "ΑΣΑ"))].

Definition env_greek : Env :=
  {| upper_u := fun c => [c];
     lower_u := greek_lower;
     PASSWORD := lit "Debu";
     http_get := fun _ _ => Ok (mkResponse 200 (Some greek_profile)) |}.

(* ================================================================== *)
(** * Strings and dictionaries: basic facts *)

Lemma str_eqb_eq (a b : str) : str_eqb a b = true <-> a = b.
Proof.
  revert b; induction a as [|x a IH]; intros [|y b]; simpl; split;
    try congruence; try reflexivity.
  - intros H. apply andb_true_iff in H as [H1 H2].
    apply N.eqb_eq in H1. apply IH in H2. congruence.
  - intros H. injection H as -> ->. rewrite N.eqb_refl. simpl. now apply IH.
Qed.

Lemma str_eqb_refl (a : str) : str_eqb a a = true.
Proof. now apply str_eqb_eq. Qed.

Lemma str_eqb_neq (a b : str) : a <> b -> str_eqb a b = false.
Proof.
  intros H. destruct (str_eqb a b) eqn:Eq; [|reflexivity].
  apply str_eqb_eq in Eq. contradiction.
Qed.

Lemma str_eqb_false (a b : str) : str_eqb a b = false -> a <> b.
Proof. intros H ->. rewrite str_eqb_refl in H. discriminate. Qed.

Section DictFacts.
Variable V : Type.
Implicit Types (d : dict V) (k : str) (v : V).

Lemma dict_get_fresh k d : ~ In k (keys d) -> dict_get k d = None.
Proof.
  induction d as [|[k' v'] d IH]; simpl; intros H; [reflexivity|].
  rewrite str_eqb_neq by (intros ->; apply H; now left).
  apply IH. intros Hin. apply H. now right.
Qed.

Lemma dict_get_present k d : In k (keys d) -> exists v, dict_get k d = Some v.
Proof.
  induction d as [|[k' v'] d IH]; simpl; intros H; [contradiction|].
  destruct (str_eqb k k') eqn:Eq; [now exists v'|].
  destruct H as [H|H]; [|now apply IH].
  subst. now rewrite str_eqb_refl in Eq.
Qed.

Lemma dict_set_fresh k v d : ~ In k (keys d) -> dict_set k v d = d ++ [(k, v)].
Proof.
  induction d as [|[k' v'] d IH]; simpl; intros H; [reflexivity|].
  rewrite str_eqb_neq by (intros ->; apply H; now left).
  f_equal. apply IH. intros Hin. apply H. now right.
Qed.

Lemma keys_dict_set k v d k' :
  In k' (keys (dict_set k v d)) <-> k' = k \/ In k' (keys d).
Proof.
  induction d as [|[k0 v0] d IH]; simpl.
  - intuition.
  - destruct (str_eqb k k0) eqn:Eq; simpl.
    + apply str_eqb_eq in Eq. subst. intuition.
    + rewrite IH. intuition.
Qed.

Lemma fold_set_fresh (l : list (str * V)) d :
  NoDup (keys d ++ keys l) ->
  fold_left (fun a kv => dict_set (fst kv) (snd kv) a) l d = d ++ l.
Proof.
  revert d; induction l as [|[k v] l IH]; intros d H; simpl.
  - now rewrite app_nil_r.
  - simpl in H. rewrite dict_set_fresh.
    + rewrite IH.
      * now rewrite <- app_assoc.
      * unfold keys in *. rewrite map_app. simpl. now rewrite <- app_assoc.
    + apply NoDup_remove_2 in H. intros Hin. apply H. apply in_or_app. now left.
Qed.

Lemma dict_of_pairs_wf (l : list (str * V)) : wf_dict l -> dict_of_pairs l = l.
Proof. intros H. unfold dict_of_pairs. now rewrite fold_set_fresh. Qed.

Lemma keys_fold_set (l : list (str * V)) d k :
  In k (keys (fold_left (fun a kv => dict_set (fst kv) (snd kv) a) l d)) <->
  In k (keys d) \/ In k (keys l).
Proof.
  revert d; induction l as [|[k0 v0] l IH]; intros d; simpl.
  - intuition.
  - rewrite IH, keys_dict_set. intuition.
Qed.

Lemma keys_dict_remove k d k' :
  In k' (keys (dict_remove k d)) -> In k' (keys d).
Proof.
  induction d as [|[k0 v0] d IH]; simpl; [tauto|].
  destruct (str_eqb k k0); simpl; intuition.
Qed.

Lemma dict_remove_gone k d : wf_dict d -> ~ In k (keys (dict_remove k d)).
Proof.
  unfold wf_dict.
  induction d as [|[k0 v0] d IH]; simpl; intros H; [tauto|].
  inversion H as [|? ? Hn Hd]; subst.
  destruct (str_eqb k k0) eqn:Eq; simpl.
  - apply str_eqb_eq in Eq. now subst.
  - apply str_eqb_false in Eq. intros [H1|H1]; [congruence|]. now apply IH.
Qed.

Lemma dict_remove_wf k d : wf_dict d -> wf_dict (dict_remove k d).
Proof.
  unfold wf_dict.
  induction d as [|[k0 v0] d IH]; simpl; intros H; [assumption|].
  inversion H as [|? ? Hn Hd]; subst.
  destruct (str_eqb k k0); simpl; [assumption|].
  constructor; [|now apply IH].
  intros Hin. apply Hn. eapply keys_dict_remove, Hin.
Qed.

End DictFacts.

(* ================================================================== *)
(** * Splitting and joining *)

Lemma lit_comma : lit "," = [comma].
Proof. reflexivity. Qed.

Lemma split_nonempty (sep : N) (s : str) : split sep s <> [].
Proof.
  induction s as [|c s IH]; simpl; [discriminate|].
  destruct (c =? sep)%N; [discriminate|].
  destruct (split sep s); [contradiction|discriminate].
Qed.

Lemma join_split (sep : N) (s : str) : join [sep] (split sep s) = s.
Proof.
  induction s as [|c s IH]; simpl; [reflexivity|].
  destruct (c =? sep)%N eqn:Eq.
  - apply N.eqb_eq in Eq. subst c.
    destruct (split sep s) eqn:Es; [now apply split_nonempty in Es|].
    simpl in *. now rewrite IH.
  - destruct (split sep s) as [|p ps] eqn:Es; [now apply split_nonempty in Es|].
    destruct ps; simpl in *; now rewrite <- IH.
Qed.


Lemma split_app_sep (sep : N) (x s : str) :
  ~ In sep x -> split sep (x ++ sep :: s) = x :: split sep s.
Proof.
  induction x as [|c x IH]; simpl; intros H.
  - now rewrite N.eqb_refl.
  - destruct (c =? sep)%N eqn:Eq.
    + apply N.eqb_eq in Eq. subst. exfalso. apply H. now left.
    + rewrite IH by tauto. reflexivity.
Qed.

Lemma split_no_sep (sep : N) (x : str) : ~ In sep x -> split sep x = [x].
Proof.
  induction x as [|c x IH]; simpl; intros H; [reflexivity|].
  destruct (c =? sep)%N eqn:Eq.
  - apply N.eqb_eq in Eq. subst. exfalso. apply H. now left.
  - rewrite IH by tauto. reflexivity.
Qed.

Lemma split_join (sep : N) (l : list str) :
  l <> [] -> Forall (fun r => ~ In sep r) l -> split sep (join [sep] l) = l.
Proof.
  induction l as [|x l IH]; intros Hne Hall; [contradiction|].
  inversion Hall as [|? ? Hx Hl]; subst.
  destruct l as [|y l].
  - simpl. now apply split_no_sep.
  - change (join [sep] (x :: y :: l)) with (x ++ sep :: join [sep] (y :: l)).
    rewrite split_app_sep by assumption.
    f_equal. apply IH; [discriminate|assumption].
Qed.

Lemma parse_join (rs : list str) :
  Forall (fun r => ~ In comma r) rs -> rs <> [[]] ->
  parse_reasons (join (lit ",") rs) = rs.
Proof.
  intros Hall Hblank. rewrite lit_comma.
  destruct rs as [|x rs]; [reflexivity|].
  assert (Hs : split comma (join [comma] (x :: rs)) = x :: rs)
    by (apply split_join; [discriminate|assumption]).
  unfold parse_reasons.
  destruct (join [comma] (x :: rs)) as [|c s] eqn:Ej; [|exact Hs].
  exfalso. destruct rs as [|y rs].
  - simpl in Ej. subst x. now apply Hblank.
  - simpl in Ej. destruct x; discriminate.
Qed.

(* ================================================================== *)
(** * The entry store *)

Lemma overlay_nil_r (g : grid) : overlay g [] = g.
Proof. now destruct g. Qed.

Lemma save_unfold (es : dict Entry) (w : World) :
  save_entries_to_sheet es w =
  (Ok tt,
   mkWorld (entries w) (header_row :: map entry_row es)
           (sheet_calls w ++ [Clear; Update (header_row :: map entry_row es)])
           (cache w) (requests w) (ui w)).
Proof.
  unfold save_entries_to_sheet, sheet_clear, sheet_update, bind, modify, set_sheet.
  simpl. now rewrite <- app_assoc.
Qed.

Lemma load_unfold (w : World) :
  load_entries_from_sheet w =
  (entries_of_records (get_all_records (sheet w)) [], w).
Proof. reflexivity. Qed.

Lemma record_of_row (a b c : str) :
  dict_of_pairs (combine header_row [a; b; c]) =
  [(lit "tag", a); (lit "reasons", b); (lit "note", c)].
Proof. reflexivity. Qed.

Lemma entries_of_rows (rows : list (str * str * str)) (acc : dict Entry) :
  entries_of_records
    (map (fun row => dict_of_pairs (combine header_row row))
         (map (fun '(t, r, n) => [t; r; n]) rows)) acc =
  Ok (fold_left (fun d kv => dict_set (fst kv) (snd kv) d)
        (map (fun '(t, r, n) => (t, mkEntry (parse_reasons r) n)) rows) acc).
Proof.
  revert acc; induction rows as [|[[t r] n] rows IH]; intros acc; [reflexivity|].
  cbn [map]. rewrite record_of_row.
  cbn [entries_of_records fold_left fst snd].
  change (dict_index (lit "tag") [(lit "tag", t); (lit "reasons", r); (lit "note", n)])
    with (Ok t).
  change (dict_index (lit "reasons") [(lit "tag", t); (lit "reasons", r); (lit "note", n)])
    with (Ok r).
  change (dict_index (lit "note") [(lit "tag", t); (lit "reasons", r); (lit "note", n)])
    with (Ok n).
  cbv iota beta. apply IH.
Qed.

Lemma load_rows (rows : list (str * str * str)) (w : World) :
  sheet w = header_row :: map (fun '(t, r, n) => [t; r; n]) rows ->
  load_entries_from_sheet w =
  (Ok (dict_of_pairs
         (map (fun '(t, r, n) => (t, mkEntry (parse_reasons r) n)) rows)), w).
Proof.
  intros H. rewrite load_unfold, H. unfold get_all_records.
  now rewrite entries_of_rows.
Qed.

(** Reading back what [save_entries_to_sheet] wrote: every entry comes back
    under its key with its reasons re-parsed from the joined cell. *)
Lemma load_saved (es : dict Entry) (w : World) :
  sheet w = header_row :: map entry_row es ->
  load_entries_from_sheet w =
  (Ok (dict_of_pairs (map (fun te => (fst te, reparse (snd te))) es)), w).
Proof.
  intros H.
  rewrite (@load_rows
             (map (fun te => (fst te, join (lit ",") (reasons (snd te)), note (snd te))) es)).
  - rewrite map_map. reflexivity.
  - rewrite H, map_map. reflexivity.
Qed.

Lemma load_after_save (es : dict Entry) (w : World) :
  load_entries_from_sheet (snd (save_entries_to_sheet es w)) =
  (Ok (dict_of_pairs (map (fun te => (fst te, reparse (snd te))) es)),
   snd (save_entries_to_sheet es w)).
Proof. apply load_saved. now rewrite save_unfold. Qed.

Lemma reparse_id (x : dict Entry) :
  comma_free x -> no_blank_reasons x ->
  map (fun te => (fst te, reparse (snd te))) x = x.
Proof.
  unfold comma_free, no_blank_reasons.
  induction x as [|[k [rs n]] x IH]; intros Hc Hb; [reflexivity|].
  inversion Hc; inversion Hb; subst. cbn [map fst snd].
  rewrite IH by assumption. unfold reparse. cbn [reasons note] in *.
  now rewrite parse_join.
Qed.

Lemma keys_reparse (x : dict Entry) :
  keys (map (fun te => (fst te, reparse (snd te))) x) = keys x.
Proof. unfold keys. rewrite map_map. reflexivity. Qed.

(* ================================================================== *)
(** * The entry store read through the client library *)

Section Reader.
Context {G : Numbers}.

Lemma numericise_text (s : str) :
  Gspread.number_like s = false -> Gspread.numericise s = Text s.
Proof. unfold Gspread.numericise. now intros ->. Qed.

Lemma numericise_is_text (s t : str) :
  Gspread.numericise s = Text t -> s = t.
Proof.
  unfold Gspread.numericise. destruct (Gspread.number_like s); [discriminate|].
  now intros [= ->].
Qed.

Lemma cdict_set_keys (V : Type) (k c : cell) (v : V) (d : list (cell * V)) :
  In c (map fst (Gspread.cdict_set k v d)) -> In c (map fst d) \/ c = k.
Proof.
  induction d as [|[k' v'] d IH]; cbn [Gspread.cdict_set map fst In].
  - intros [<-|[]]. now right.
  - destruct (Gspread.cell_eqb k k'); cbn [map fst In]; [tauto|].
    intros [H|H]; [tauto|]. destruct (IH H); tauto.
Qed.

Lemma cdict_set_text (V : Type) (k : str) (v : V) (d : dict V) :
  Gspread.cdict_set (Text k) v (text_keys d) = text_keys (dict_set k v d).
Proof.
  induction d as [|[k' v'] d IH]; [reflexivity|].
  cbn [text_keys map Gspread.cdict_set dict_set fst snd Gspread.cell_eqb].
  destruct (str_eqb k k') eqn:Ek.
  - apply str_eqb_eq in Ek. now subst k'.
  - cbn [map fst snd]. f_equal. exact IH.
Qed.

Lemma fold_cdict_set_text (l acc : dict Loaded) :
  fold_left (fun d kv => Gspread.cdict_set (fst kv) (snd kv) d)
    (text_keys l) (text_keys acc) =
  text_keys (fold_left (fun d kv => dict_set (fst kv) (snd kv) d) l acc).
Proof.
  revert acc. induction l as [|[k v] l IH]; intros acc; [reflexivity|].
  cbn [text_keys map fold_left fst snd].
  rewrite cdict_set_text. apply IH.
Qed.

(** Assigning text keys one after the other is assignment into a
    dictionary of strings. *)
Lemma loaded_of_pairs_text (l : dict Loaded) :
  loaded_of_pairs (text_keys l) = text_keys (dict_of_pairs l).
Proof. exact (fold_cdict_set_text l []). Qed.

(** *** Rows of three cells under the header *)

Lemma trim_blank3 (row : str * str * str) :
  blank3 row = true -> Gspread.trim_row (row3 row) = [].
Proof. destruct row as [[[|a t] [|b r]] [|c n]]; now try discriminate. Qed.

Lemma trim_nonblank3 (row : str * str * str) :
  blank3 row = false -> Gspread.trim_row (row3 row) <> [].
Proof.
  destruct row as [[[|a t] [|b r]] [|c n]]; cbn; intros H; discriminate.
Qed.

Lemma pad_trim3 (row : str * str * str) :
  Gspread.pad 3 (Gspread.trim_row (row3 row)) = row3 row.
Proof. destruct row as [[[|a t] [|b r]] [|c n]]; reflexivity. Qed.

Lemma length_trim3 (row : str * str * str) :
  List.length (Gspread.trim_row (row3 row)) <= 3.
Proof. destruct row as [[[|a t] [|b r]] [|c n]]; cbn; lia. Qed.

(** Of rows of three cells the service hands over those up to the last one
    that is not entirely empty, each without the empty cells at its end. *)
Lemma trim_rows3 (rows : list (str * str * str)) :
  Gspread.trim_rows (map row3 rows) =
  map (fun row => Gspread.trim_row (row3 row)) (live rows).
Proof.
  induction rows as [|row rows IH]; [reflexivity|].
  cbn [map Gspread.trim_rows live]. rewrite IH.
  destruct (live rows) as [|p l]; cbn [map].
  - destruct (blank3 row) eqn:Eb.
    + now rewrite (trim_blank3 _ Eb).
    + pose proof (trim_nonblank3 _ Eb) as Hne. cbn [map].
      now destruct (Gspread.trim_row (row3 row)).
  - now destruct (Gspread.trim_row (row3 row)).
Qed.

Lemma width_trimmed3 (rows : list (str * str * str)) :
  Gspread.width (map (fun row => Gspread.trim_row (row3 row)) rows) <= 3.
Proof.
  induction rows as [|row rows IH]; cbn [map Gspread.width fold_right]; [lia|].
  change (fold_right (fun r m => Nat.max (List.length r) m) 0
            (map (fun row => Gspread.trim_row (row3 row)) rows))
    with (Gspread.width (map (fun row => Gspread.trim_row (row3 row)) rows)).
  pose proof (length_trim3 row). lia.
Qed.

Lemma trim_header : Gspread.trim_row header_row = header_row.
Proof. vm_compute. reflexivity. Qed.

Lemma values_rows3 (rows : list (str * str * str)) :
  Gspread.get_all_values (header_row :: map row3 rows) =
  header_row :: map row3 (live rows).
Proof.
  unfold Gspread.get_all_values.
  assert (Ht : Gspread.trim_rows (header_row :: map row3 rows) =
               header_row :: map (fun row => Gspread.trim_row (row3 row)) (live rows)).
  { cbn [Gspread.trim_rows]. rewrite trim_header, trim_rows3. reflexivity. }
  rewrite Ht.
  assert (Hw : Gspread.width
                 (header_row :: map (fun row => Gspread.trim_row (row3 row)) (live rows))
               = 3).
  { pose proof (width_trimmed3 (live rows)) as H.
    unfold Gspread.width in *. cbn [fold_right header_row List.length]. lia. }
  rewrite Hw. cbn [map].
  change (Gspread.pad 3 header_row) with header_row. f_equal.
  rewrite map_map. apply map_ext. intros row. apply pad_trim3.
Qed.

Lemma records_rows3 (rows : list (str * str * str)) :
  Gspread.get_all_records (header_row :: map row3 rows) =
  Ok (map record3 (live rows)).
Proof.
  unfold Gspread.get_all_records. rewrite values_rows3.
  replace (Gspread.unique header_row) with true by (vm_compute; reflexivity).
  rewrite map_map. f_equal. apply map_ext. intros [[t r] n]. reflexivity.
Qed.

Lemma live_incl (rows : list (str * str * str)) :
  incl (live rows) rows.
Proof.
  induction rows as [|row rows IH]; [apply incl_refl|].
  cbn [live]. destruct (live rows) as [|p l].
  - destruct (blank3 row); [apply incl_nil_l|].
    apply incl_cons; [now left|apply incl_nil_l].
  - apply incl_cons; [now left|]. now apply incl_tl.
Qed.

Lemma Forall_live (P : str * str * str -> Prop) (rows : list (str * str * str)) :
  Forall P rows -> Forall P (live rows).
Proof.
  rewrite !Forall_forall. intros H row Hin. apply H. now apply live_incl.
Qed.

Lemma live_written (rows : list (str * str * str)) :
  ends_written rows = true -> live rows = rows.
Proof.
  induction rows as [|row rows IH]; [reflexivity|].
  cbn [ends_written live]. destruct rows as [|p l].
  - cbn [live]. now destruct (blank3 row).
  - intros H. now rewrite (IH H).
Qed.



Lemma gs_load_unfold (w : World) :
  Gspread.load_entries_from_sheet w =
  (match Gspread.get_all_records (sheet w) with
   | Ok recs => Gspread.entries_of_records recs []
   | Raise e => Raise e
   end, w).
Proof.
  unfold Gspread.load_entries_from_sheet, bind, get_world, lift.
  now destruct (Gspread.get_all_records (sheet w)).
Qed.

Lemma reasons_cell (r : str) :
  splittable r = true ->
  (if Gspread.truthy (Gspread.numericise r)
   then Gspread.cell_split (Gspread.numericise r) else Ok []) =
  Ok (if Gspread.number_like r then [] else parse_reasons r).
Proof.
  unfold splittable, Gspread.numericise.
  destruct (Gspread.number_like r);
    cbn [negb orb Gspread.truthy Gspread.cell_split].
  - now intros ->.
  - intros _. now destruct r.
Qed.


Lemma record3_step (t r n : str) (rest : list (dict cell))
  (acc : list (cell * Loaded)) :
  Gspread.entries_of_records (record3 (t, r, n) :: rest) acc =
  match (if Gspread.truthy (Gspread.numericise r)
         then Gspread.cell_split (Gspread.numericise r) else Ok []) with
  | Raise e => Raise e
  | Ok rs =>
      Gspread.entries_of_records rest
        (Gspread.cdict_set (Gspread.numericise t)
           (mkLoaded rs (Gspread.numericise n)) acc)
  end.
Proof. reflexivity. Qed.

Lemma entries_of_rows3 (rows : list (str * str * str)) :
  forall acc,
    Forall (fun row => splittable (snd (fst row)) = true) rows ->
    Gspread.entries_of_records (map record3 rows) acc =
    Ok (fold_left (fun d kv => Gspread.cdict_set (fst kv) (snd kv) d)
          (map loaded_row rows) acc).
Proof.
  induction rows as [|[[t r] n] rows IH]; intros acc H; [reflexivity|].
  inversion H as [|x l Hr Hrest]; subst. cbn [fst snd] in Hr.
  cbn [map]. rewrite record3_step, (reasons_cell _ Hr).
  cbn [fold_left loaded_row fst snd]. now apply IH.
Qed.


Lemma entries_of_rows3_keys (rows : list (str * str * str)) :
  forall acc d,
    Gspread.entries_of_records (map record3 rows) acc = Ok d ->
    forall c, In c (map fst d) ->
      In c (map fst acc) \/
      exists row, In row rows /\ c = Gspread.numericise (fst (fst row)).
Proof.
  induction rows as [|[[t r] n] rows IH]; intros acc d H c Hc.
  - cbn in H. injection H as <-. now left.
  - cbn [map] in H. rewrite record3_step in H.
    destruct (if Gspread.truthy (Gspread.numericise r)
              then Gspread.cell_split (Gspread.numericise r) else Ok [])
      as [rs|e]; [|discriminate].
    destruct (IH _ _ H c Hc) as [Hin|(row & Hrow & ->)].
    + apply cdict_set_keys in Hin. destruct Hin as [Hin| ->]; [now left|].
      right. exists (t, r, n). split; [now left|reflexivity].
    + right. exists row. split; [now right|reflexivity].
Qed.

(** Loading a worksheet of three-cell rows under the header: when every
    reasons cell can be taken apart, the rows handed over are assigned in
    order. *)
Lemma gs_load_rows (rows : list (str * str * str)) (w : World) :
  sheet w = header_row :: map row3 rows ->
  Forall (fun row => splittable (snd (fst row)) = true) rows ->
  Gspread.load_entries_from_sheet w =
  (Ok (loaded_of_pairs (map loaded_row (live rows))), w).
Proof.
  intros Hs H. rewrite gs_load_unfold, Hs, records_rows3.
  rewrite entries_of_rows3; [reflexivity|now apply Forall_live].
Qed.



Lemma gs_load_keys (rows : list (str * str * str)) (w : World)
  (d : list (cell * Loaded)) :
  sheet w = header_row :: map row3 rows ->
  fst (Gspread.load_entries_from_sheet w) = Ok d ->
  forall c, In c (map fst d) ->
    exists row, In row rows /\ c = Gspread.numericise (fst (fst row)).
Proof.
  intros Hs H c Hc. rewrite gs_load_unfold, Hs, records_rows3 in H.
  cbn [fst] in H.
  destruct (entries_of_rows3_keys _ _ H c Hc) as [[]|(row & Hrow & Heq)].
  exists row. split; [now apply live_incl|exact Heq].
Qed.

Lemma saved_rows (es : dict Entry) :
  map entry_row es = map row3 (map saved_row es).
Proof. rewrite map_map. reflexivity. Qed.

(** A row whose cells do not read as numbers loads as its text. *)
Lemma loaded_saved_text (x : dict Entry) :
  text_cells x ->
  map loaded_row (map saved_row x) =
  text_keys (map (fun te => (fst te,
                             mkLoaded (reasons (reparse (snd te)))
                                      (Text (note (snd te))))) x).
Proof.
  unfold text_cells. induction x as [|[k e] x IH]; intros H; [reflexivity|].
  inversion H as [|y l (Hk & Hr & Hn) Hrest]; subst.
  cbn [fst snd] in Hk, Hr, Hn.
  cbn [map text_keys saved_row loaded_row fst snd].
  rewrite Hr, (numericise_text _ Hk), (numericise_text _ Hn).
  f_equal. now apply IH.
Qed.

Lemma text_cells_readable (x : dict Entry) :
  text_cells x -> reasons_readable x.
Proof.
  unfold text_cells, reasons_readable. apply Forall_impl.
  intros te (_ & Hr & _). unfold splittable. now rewrite Hr.
Qed.

Lemma readable_rows (x : dict Entry) :
  reasons_readable x ->
  Forall (fun row => splittable (snd (fst row)) = true) (map saved_row x).
Proof.
  unfold reasons_readable. intros H. apply Forall_map.
  revert H. apply Forall_impl. now intros te H.
Qed.

(** Loading what was saved, when no cell written reads as a number and the
    last row written is not entirely empty: every entry comes back under
    its key with its reasons re-parsed from the joined cell. *)
Lemma gs_load_saved (x : dict Entry) (w : World) :
  sheet w = header_row :: map entry_row x ->
  wf_dict x -> text_cells x -> tail_kept x ->
  Gspread.load_entries_from_sheet w =
  (Ok (as_loaded (map (fun te => (fst te, reparse (snd te))) x)), w).
Proof.
  intros Hs Hwf Ht Hk. rewrite saved_rows in Hs.
  rewrite (gs_load_rows _ Hs (readable_rows (text_cells_readable Ht))).
  rewrite (live_written _ Hk).
  rewrite (loaded_saved_text Ht), loaded_of_pairs_text.
  rewrite dict_of_pairs_wf.
  - unfold as_loaded. now rewrite map_map.
  - unfold wf_dict, keys. rewrite map_map. exact Hwf.
Qed.

Lemma dict_set_mapv (V W : Type) (h : V -> W) (k : str) (v : V) (d : dict V) :
  map (fun kv => (fst kv, h (snd kv))) (dict_set k v d) =
  dict_set k (h v) (map (fun kv => (fst kv, h (snd kv))) d).
Proof.
  induction d as [|[k' v'] d IH]; [reflexivity|].
  cbn [dict_set map fst snd]. destruct (str_eqb k k'); [reflexivity|].
  cbn [map fst snd]. now rewrite IH.
Qed.

Lemma dict_of_pairs_mapv (V W : Type) (h : V -> W) (l : list (str * V)) :
  map (fun kv => (fst kv, h (snd kv))) (dict_of_pairs l) =
  dict_of_pairs (map (fun kv => (fst kv, h (snd kv))) l).
Proof.
  assert (Hgen : forall acc : dict V,
    map (fun kv => (fst kv, h (snd kv)))
        (fold_left (fun d kv => dict_set (fst kv) (snd kv) d) l acc) =
    fold_left (fun d kv => dict_set (fst kv) (snd kv) d)
      (map (fun kv => (fst kv, h (snd kv))) l)
      (map (fun kv => (fst kv, h (snd kv))) acc)).
  { induction l as [|[k v] l IH]; intros acc; [reflexivity|].
    cbn [map fold_left fst snd]. rewrite <- dict_set_mapv. apply IH. }
  exact (Hgen []).
Qed.

(** On a worksheet of three-cell rows none of whose cells reads as a
    number and whose last row is not entirely empty, the library reading
    and the text reading agree. *)
Lemma load_text_agrees (rows : list (str * str * str)) (w : World) :
  sheet w = header_row :: map row3 rows ->
  Forall (fun row => Gspread.number_like (fst (fst row)) = false /\
                     Gspread.number_like (snd (fst row)) = false /\
                     Gspread.number_like (snd row) = false) rows ->
  ends_written rows = true ->
  exists d,
    load_entries_from_sheet w = (Ok d, w) /\
    Gspread.load_entries_from_sheet w = (Ok (as_loaded d), w).
Proof.
  intros Hs H Hk.
  exists (dict_of_pairs
            (map (fun '(t, r, n) => (t, mkEntry (parse_reasons r) n)) rows)).
  split.
  - apply load_rows. exact Hs.
  - rewrite (gs_load_rows _ Hs).
    + rewrite (live_written _ Hk). f_equal. f_equal. unfold as_loaded.
      rewrite (dict_of_pairs_mapv (fun e => mkLoaded (reasons e) (Text (note e)))).
      rewrite <- loaded_of_pairs_text. f_equal.
      unfold text_keys. rewrite !map_map.
      apply map_ext_in. intros [[t r] n] Hin.
      rewrite Forall_forall in H. destruct (H _ Hin) as (Ht & Hr & Hn).
      cbn [fst snd] in *. cbn [loaded_row reasons note].
      now rewrite Hr, (numericise_text _ Ht), (numericise_text _ Hn).
    + revert H. apply Forall_impl. intros row (_ & Hr & _).
      unfold splittable. now rewrite Hr.
Qed.

(** *** Deleting from a dictionary *)

Lemma dict_remove_filter (V : Type) (k : str) (d : dict V) :
  wf_dict d ->
  dict_remove k d = filter (fun te => negb (str_eqb (fst te) k)) d.
Proof.
  unfold wf_dict, keys. induction d as [|[k' v'] d IH]; intros Hwf;
    [reflexivity|].
  cbn [map fst] in Hwf. inversion Hwf as [|x l Hnot Hrest]; subst.
  cbn [dict_remove filter fst].
  destruct (str_eqb k k') eqn:Ek.
  - apply str_eqb_eq in Ek. subst k'. rewrite str_eqb_refl. cbn [negb].
    symmetry. apply forallb_filter_id. apply forallb_forall.
    intros [k1 v1] Hin. cbn [fst]. apply negb_true_iff, str_eqb_neq.
    intros ->. apply Hnot. apply in_map_iff. now exists (k, v1).
  - replace (str_eqb k' k) with false.
    + cbn [negb]. f_equal. now apply IH.
    + symmetry. apply str_eqb_neq. intros ->.
      rewrite str_eqb_refl in Ek. discriminate.
Qed.

Lemma dict_get_filter_other (V : Type) (k tag : str) (d : dict V) :
  k <> tag ->
  dict_get k (filter (fun te => negb (str_eqb (fst te) tag)) d) = dict_get k d.
Proof.
  intros Hk. induction d as [|[k' v'] d IH]; [reflexivity|].
  cbn [filter fst dict_get].
  destruct (str_eqb k' tag) eqn:Et; cbn [negb dict_get].
  - apply str_eqb_eq in Et. subst k'.
    now rewrite (str_eqb_neq Hk).
  - now rewrite IH.
Qed.


(** C1 (amended). Saving an entry mapping and loading it again returns
    the same mapping, for every mapping with unique keys in which no reason
    contains a comma, no reasons list is the single empty string, no cell
    written (tag, joined reasons, note) reads as a number, and the last row
    written is not entirely empty.  For the two-entry mapping of the
    specification the save leaves exactly three rows and, none of its cells
    reading as a number, the load returns both entries unchanged. *)
Theorem C1_roundtrip :
  (forall (x : dict Entry) (w : World),
      wf_dict x -> comma_free x -> no_blank_reasons x ->
      text_cells x -> tail_kept x ->
      Gspread.load_entries_from_sheet (snd (save_entries_to_sheet x w)) =
      (Ok (as_loaded x), snd (save_entries_to_sheet x w))) /\
  (forall w : World,
      List.length (sheet (snd (save_entries_to_sheet two_entries w))) = 3 /\
      (text_cells two_entries ->
       fst (Gspread.load_entries_from_sheet
              (snd (save_entries_to_sheet two_entries w))) =
       Ok (as_loaded two_entries))).
Proof.
  assert (Hround : forall (x : dict Entry) (w : World),
      wf_dict x -> comma_free x -> no_blank_reasons x ->
      text_cells x -> tail_kept x ->
      Gspread.load_entries_from_sheet (snd (save_entries_to_sheet x w)) =
      (Ok (as_loaded x), snd (save_entries_to_sheet x w))).
  { intros x w Hwf Hc Hb Ht Hk.
    rewrite (@gs_load_saved x);
      [|now rewrite save_unfold|exact Hwf|exact Ht|exact Hk].
    now rewrite reparse_id. }
  split; [exact Hround|].
  intros w. split; [now rewrite save_unfold|].
  intros Ht. rewrite Hround; [reflexivity| | | |exact Ht|].
  - unfold wf_dict, two_entries, keys. cbn [map fst].
    repeat (constructor; [intros H; repeat destruct H as [H|H];
                          try (vm_compute in H; discriminate H); assumption|]).
    constructor.
  - unfold comma_free, two_entries. cbn [snd reasons].
    repeat (constructor;
            try (intros H; vm_compute in H;
                 repeat destruct H as [H|H]; try discriminate H; assumption)).
  - unfold no_blank_reasons, two_entries. cbn [snd reasons].
    repeat (constructor; try (intros H; vm_compute in H; discriminate H)).
  - vm_compute. reflexivity.
Qed.

(** C8. In a session whose mapping holds [tag], the delete handler of the
    list page and of the search page returns normally and leaves the
    mapping with exactly its other entries, in their order and with their
    values, and without [tag]; it saves exactly that mapping (one clear, one
    update with its rows); a mapping that the next load returns does not
    hold [tag], and the next load does return one when every reasons cell
    written is text or reads as zero. *)
Theorem C8_delete_flow (p : delete_page) (w : World) (tag : str) :
  wf_dict (entries w) ->
  In tag (keys (entries w)) ->
  let w' := snd (delete_handler p tag w) in
  fst (delete_handler p tag w) = Ok tt /\
  entries w' = filter (fun te => negb (str_eqb (fst te) tag)) (entries w) /\
  (forall k, k <> tag -> dict_get k (entries w') = dict_get k (entries w)) /\
  ~ In tag (keys (entries w')) /\
  sheet_calls w' =
    sheet_calls w ++ [Clear; Update (header_row :: map entry_row (entries w'))] /\
  sheet w' = header_row :: map entry_row (entries w') /\
  (forall d, fst (Gspread.load_entries_from_sheet w') = Ok d ->
             ~ In (Text tag) (map fst d)) /\
  (reasons_readable (entries w) ->
   exists d, Gspread.load_entries_from_sheet w' = (Ok d, w') /\
             ~ In (Text tag) (map fst d)).
Proof.
  intros Hwf Hin w'.
  destruct (dict_get_present _ _ Hin) as [v Hv].
  assert (Hrun : forall msg,
    (w0 <- get_world ;;
     d <- lift (dict_pop tag (entries w0)) ;;
     modify (set_entries d) ;;
     w1 <- get_world ;;
     save_entries_to_sheet (entries w1) ;;
     emit (SuccessBox msg)) w =
    (Ok tt,
     add_ui (SuccessBox msg)
       (snd (save_entries_to_sheet (dict_remove tag (entries w))
               (set_entries (dict_remove tag (entries w)) w))))).
  { intros msg. unfold bind, get_world, lift, dict_pop, modify, emit.
    rewrite Hv. rewrite !save_unfold. reflexivity. }
  assert (Hw' : exists msg,
    delete_handler p tag w =
    (Ok tt,
     add_ui (SuccessBox msg)
       (snd (save_entries_to_sheet (dict_remove tag (entries w))
               (set_entries (dict_remove tag (entries w)) w))))).
  { destruct p; eexists; apply Hrun. }
  destruct Hw' as [msg Hw'].
  pose proof (dict_remove_gone tag Hwf) as Hgone.
  pose proof (dict_remove_filter tag Hwf) as Hfil.
  assert (Hsheet : sheet w' = header_row :: map entry_row (dict_remove tag (entries w))).
  { subst w'. rewrite Hw', save_unfold. reflexivity. }
  assert (Hkeys : forall d, fst (Gspread.load_entries_from_sheet w') = Ok d ->
                            ~ In (Text tag) (map fst d)).
  { intros d Hd Hc. rewrite saved_rows in Hsheet.
    destruct (@gs_load_keys _ w' d Hsheet Hd _ Hc) as (row & Hrow & Heq).
    apply in_map_iff in Hrow. destruct Hrow as (te & <- & Hte).
    cbn [saved_row fst] in Heq. symmetry in Heq.
    apply numericise_is_text in Heq. apply Hgone.
    unfold keys. apply in_map_iff. exists te. now split. }
  split; [subst w'; now rewrite Hw'|].
  assert (Hent : entries w' = dict_remove tag (entries w)).
  { subst w'. rewrite Hw', save_unfold. reflexivity. }
  rewrite Hent.
  split; [exact Hfil|].
  split; [intros k Hk; rewrite Hfil; now apply dict_get_filter_other|].
  split; [exact Hgone|].
  split; [subst w'; rewrite Hw', save_unfold; reflexivity|].
  split; [exact Hsheet|].
  split; [exact Hkeys|].
  intros Hread.
  assert (Hread' : reasons_readable (dict_remove tag (entries w))).
  { rewrite Hfil. unfold reasons_readable in *.
    apply Forall_forall. intros te Hte. apply filter_In in Hte.
    rewrite Forall_forall in Hread. now apply Hread. }
  pose proof Hsheet as Hs3. rewrite saved_rows in Hs3.
  pose proof (@gs_load_rows _ w' Hs3 (readable_rows Hread')) as Hload.
  eexists. split; [exact Hload|].
  apply Hkeys. now rewrite Hload.
Qed.


End Reader.

(* ================================================================== *)
(** * Trimming *)

Lemma lstrip_no_lead (s : str) : no_lead (lstrip s).
Proof.
  induction s as [|c s IH]; simpl; [exact I|].
  destruct (isspace c) eqn:Ec; [assumption|exact Ec].
Qed.

Lemma lstrip_fix (s : str) : no_lead s -> lstrip s = s.
Proof. destruct s as [|c s]; simpl; [reflexivity|]. now intros ->. Qed.

Lemma lstrip_all_space (s : str) : forallb isspace s = true -> lstrip s = [].
Proof.
  induction s as [|c s IH]; simpl; [reflexivity|].
  intros H. apply andb_true_iff in H as [-> H]. now apply IH.
Qed.

Lemma lstrip_snoc (a : str) (c : N) :
  isspace c = false -> lstrip (a ++ [c]) = lstrip a ++ [c].
Proof.
  intros Hc. induction a as [|x a IH]; simpl.
  - now rewrite Hc.
  - destruct (isspace x); [assumption|reflexivity].
Qed.

Lemma rstrip_cons (c : N) (s : str) :
  isspace c = false -> rstrip (c :: s) = c :: rstrip s.
Proof.
  intros Hc. unfold rstrip. simpl.
  rewrite lstrip_snoc by assumption.
  now rewrite rev_app_distr.
Qed.

Lemma rstrip_fix (s : str) : no_trail s -> rstrip s = s.
Proof.
  unfold no_trail, rstrip. intros H.
  rewrite lstrip_fix by assumption. apply rev_involutive.
Qed.

Lemma rstrip_no_trail (s : str) : no_trail (rstrip s).
Proof.
  unfold no_trail, rstrip. rewrite rev_involutive. apply lstrip_no_lead.
Qed.

Lemma rstrip_no_lead (s : str) : no_lead s -> no_lead (rstrip s).
Proof.
  destruct s as [|c s]; [intros _; exact I|].
  simpl. intros Hc. now rewrite rstrip_cons.
Qed.

Lemma strip_no_lead (s : str) : no_lead (strip s).
Proof. apply rstrip_no_lead, lstrip_no_lead. Qed.

Lemma strip_no_trail (s : str) : no_trail (strip s).
Proof. apply rstrip_no_trail. Qed.

Lemma strip_fix (s : str) : no_lead s -> no_trail s -> strip s = s.
Proof.
  intros H1 H2. unfold strip. rewrite lstrip_fix by assumption.
  now apply rstrip_fix.
Qed.

Lemma strip_all_space (s : str) : forallb isspace s = true -> strip s = [].
Proof. intros H. unfold strip. now rewrite lstrip_all_space. Qed.

Lemma no_trail_cons (c : N) (s : str) :
  isspace c = false -> no_trail s -> no_trail (c :: s).
Proof.
  unfold no_trail. simpl. intros Hc H.
  destruct (rev s) as [|d r]; simpl; assumption.
Qed.

Lemma lit_hash : lit "#" = [hash].
Proof. reflexivity. Qed.

Lemma startswith_hash (t : str) :
  startswith t [hash] = true <-> exists r, t = hash :: r.
Proof.
  destruct t as [|c t].
  - split; [discriminate|intros [r H]; discriminate].
  - assert (Hs : startswith (c :: t) [hash] = (hash =? c)%N)
      by (destruct t; simpl; apply andb_true_r).
    rewrite Hs. split.
    + intros H. apply N.eqb_eq in H. subst. now exists t.
    + intros [r H]. injection H as -> _. reflexivity.
Qed.

(** Whitespace of the printable ASCII range. *)
Lemma isspace_printable (c : N) : (33 <= c <= 126)%N -> isspace c = false.
Proof.
  intros H. unfold isspace.
  replace (c <=? 13)%N with false by (symmetry; apply N.leb_gt; lia).
  replace (c <=? 32)%N with false by (symmetry; apply N.leb_gt; lia).
  replace (8192 <=? c)%N with false by (symmetry; apply N.leb_gt; lia).
  repeat match goal with
         | |- context [(c =? ?k)%N] =>
             replace (c =? k)%N with false by (symmetry; apply N.eqb_neq; lia)
         end.
  now rewrite !andb_false_r.
Qed.

Lemma ascii_upper_range (c : N) :
  ascii_upper c = c \/ ((97 <= c <= 122)%N /\ ascii_upper c = (c - 32)%N).
Proof.
  unfold ascii_upper.
  destruct (97 <=? c)%N eqn:E1; [|now left].
  destruct (c <=? 122)%N eqn:E2; [|now left].
  right. apply N.leb_le in E1, E2. split; [lia|reflexivity].
Qed.

Lemma ascii_upper_small (c : N) : (c < 128)%N -> (ascii_upper c < 128)%N.
Proof. intros H. destruct (ascii_upper_range c) as [H1|[_ H1]]; rewrite H1; lia. Qed.

Lemma ascii_upper_idem (c : N) : ascii_upper (ascii_upper c) = ascii_upper c.
Proof.
  destruct (ascii_upper_range c) as [H|[Hr H]]; rewrite H; [exact H|].
  unfold ascii_upper.
  replace (97 <=? c - 32)%N with false by (symmetry; apply N.leb_gt; lia).
  reflexivity.
Qed.

Lemma ascii_upper_space (c : N) : isspace (ascii_upper c) = isspace c.
Proof.
  destruct (ascii_upper_range c) as [H|[Hr H]]; rewrite H; [reflexivity|].
  rewrite !isspace_printable by lia. reflexivity.
Qed.

(* ================================================================== *)
(** * Normalization *)

Section Normalization.
Context {E : Env}.

Lemma upper_app (a b : str) : upper (a ++ b) = upper a ++ upper b.
Proof. apply flat_map_app. Qed.

Lemma upper_cp_ascii (c : N) : (c < 128)%N -> upper_cp c = [ascii_upper c].
Proof. intros H. unfold upper_cp. apply N.ltb_lt in H. now rewrite H. Qed.

Lemma upper_hash (t : str) : upper (hash :: t) = hash :: upper t.
Proof. reflexivity. Qed.

Lemma normalize_tag_unfold (raw : str) :
  normalize_tag raw =
  if startswith (upper (strip raw)) [hash]
  then upper (strip raw)
  else hash :: upper (strip raw).
Proof.
  unfold normalize_tag. rewrite lit_hash.
  now destruct (startswith (upper (strip raw)) [hash]).
Qed.

Lemma normalize_tag_marker (raw : str) : exists r, normalize_tag raw = hash :: r.
Proof.
  rewrite normalize_tag_unfold.
  destruct (startswith (upper (strip raw)) [hash]) eqn:Es.
  - now apply startswith_hash.
  - now eexists.
Qed.

Section Tables.
Hypothesis tables : upper_table_ok.

Lemma upper_cp_ok (c : N) :
  upper_cp c <> [] /\
  (forall d, In d (upper_cp c) -> isspace d = isspace c) /\
  upper (upper_cp c) = upper_cp c.
Proof.
  destruct (N.ltb_spec c 128) as [Hlt|Hge].
  - rewrite upper_cp_ascii by assumption. repeat split.
    + discriminate.
    + intros d [<-|[]]. apply ascii_upper_space.
    + unfold upper. simpl. rewrite app_nil_r.
      rewrite upper_cp_ascii by now apply ascii_upper_small.
      now rewrite ascii_upper_idem.
  - unfold upper_cp. apply N.ltb_ge in Hge. rewrite Hge.
    apply tables. now apply N.ltb_ge.
Qed.

Lemma upper_idem (s : str) : upper (upper s) = upper s.
Proof.
  induction s as [|c s IH]; [reflexivity|].
  change (upper (c :: s)) with (upper_cp c ++ upper s).
  rewrite upper_app, IH. f_equal. apply upper_cp_ok.
Qed.

Lemma upper_no_lead (s : str) : no_lead s -> no_lead (upper s).
Proof.
  destruct s as [|c s]; [intros _; exact I|].
  simpl. intros Hc.
  destruct (upper_cp_ok c) as (Hne & Hsp & _).
  destruct (upper_cp c) as [|d ds]; [contradiction|].
  simpl. rewrite (Hsp d) by now left. exact Hc.
Qed.

Lemma upper_no_trail (s : str) : no_trail s -> no_trail (upper s).
Proof.
  unfold no_trail. intros H.
  destruct (rev s) as [|c t] eqn:Er.
  - apply (f_equal (@rev N)) in Er. rewrite rev_involutive in Er.
    subst s. exact I.
  - apply (f_equal (@rev N)) in Er. rewrite rev_involutive in Er.
    simpl in Er. subst s. rewrite upper_app, rev_app_distr.
    change (upper [c]) with (upper_cp c ++ []). rewrite app_nil_r.
    destruct (upper_cp_ok c) as (Hne & Hsp & _).
    destruct (rev (upper_cp c)) as [|d ds] eqn:Ed.
    + apply (f_equal (@rev N)) in Ed. rewrite rev_involutive in Ed.
      contradiction.
    + simpl. rewrite (Hsp d); [exact H|].
      apply in_rev. rewrite Ed. now left.
Qed.

Lemma normalize_tag_idem (x : str) :
  normalize_tag (normalize_tag x) = normalize_tag x.
Proof.
  assert (Hl : no_lead (upper (strip x)))
    by apply upper_no_lead, strip_no_lead.
  assert (Ht : no_trail (upper (strip x)))
    by apply upper_no_trail, strip_no_trail.
  rewrite (normalize_tag_unfold x).
  destruct (startswith (upper (strip x)) [hash]) eqn:Es.
  - rewrite normalize_tag_unfold.
    rewrite strip_fix by assumption. rewrite upper_idem. now rewrite Es.
  - rewrite normalize_tag_unfold.
    rewrite strip_fix.
    + rewrite upper_hash, upper_idem.
      replace (startswith (hash :: upper (strip x)) [hash]) with true; [reflexivity|].
      symmetry. apply startswith_hash. now eexists.
    + reflexivity.
    + now apply no_trail_cons.
Qed.

End Tables.

(** C6. Under the stated properties of the uppercase table,
    [normalize_tag] is idempotent on every string.  On a string that is
    already trimmed, already uppercase and already starts with the marker
    it is the identity, and on a string that starts with the marker it
    returns the trimmed, uppercased string with no marker put in front. *)
Theorem C6_normalize_idempotent (x : str) :
  upper_table_ok ->
  normalize_tag (normalize_tag x) = normalize_tag x /\
  (strip x = x -> upper x = x -> startswith x (lit "#") = true ->
   normalize_tag x = x) /\
  (startswith x (lit "#") = true -> normalize_tag x = upper (strip x)).
Proof.
  intros tables. split; [now apply normalize_tag_idem|]. split.
  - intros Hs Hu Hm. rewrite normalize_tag_unfold, Hs, Hu.
    rewrite lit_hash in Hm. now rewrite Hm.
  - rewrite lit_hash. intros Hm. apply startswith_hash in Hm as [r ->].
    rewrite normalize_tag_unfold.
    unfold strip. rewrite (lstrip_fix (hash :: r)) by reflexivity.
    rewrite rstrip_cons by reflexivity. rewrite upper_hash.
    replace (startswith (hash :: upper (rstrip r)) [hash]) with true; [reflexivity|].
    symmetry. apply startswith_hash. now eexists.
Qed.

End Normalization.

(* ================================================================== *)
(** * The player lookup *)

Section Lookup.
Context {E : Env}.

Lemma body_unfold (now : Z) (tag : str) (w : World) :
  fetch_player_body now tag w = (body_result now tag, sent now tag w).
Proof.
  unfold body_result, sent, fetch_player_body, session_get,
    raise_for_status, response_json.
  unfold bind, lift, modify, raise, ret.
  destruct (encode_tag tag) as [enc|e]; [|reflexivity].
  cbn [fst snd].
  destruct (http_get now _) as [r|e]; [|reflexivity].
  destruct ((status_code r =? 403) || (status_code r =? 404))%Z; [reflexivity|].
  destruct ((400 <=? status_code r) && (status_code r <? 600))%Z; [reflexivity|].
  destruct (body r); reflexivity.
Qed.

Lemma cache_sent (now : Z) (tag : str) (w : World) :
  cache (sent now tag w) = cache w.
Proof. unfold sent. now destruct (encode_tag tag). Qed.

Lemma fetch_unfold (now : Z) (tag : str) (w : World) :
  fetch_player now tag w =
  match cache_lookup now tag (cache w) with
  | Some v => (Ok v, w)
  | None =>
      match body_result now tag with
      | Ok v => (Ok v, set_cache ((tag, (now, v)) :: cache w) (sent now tag w))
      | Raise e => (Raise e, sent now tag w)
      end
  end.
Proof.
  unfold fetch_player, bind, get_world.
  destruct (cache_lookup now tag (cache w)); [reflexivity|].
  rewrite body_unfold.
  destruct (body_result now tag); [|reflexivity].
  unfold modify, ret. now rewrite cache_sent.
Qed.

Lemma lookup_unfold (now : Z) (tag : str) (w : World) :
  lookup now tag w =
  match cache_lookup now tag (cache w) with
  | Some v => Ok v
  | None => body_result now tag
  end.
Proof.
  unfold lookup. rewrite fetch_unfold.
  destruct (cache_lookup now tag (cache w)); [reflexivity|].
  now destruct (body_result now tag).
Qed.

(** A lookup touches the cache and the request log only. *)
Lemma fetch_frame (now : Z) (tag : str) (w : World) :
  entries (snd (fetch_player now tag w)) = entries w /\
  sheet (snd (fetch_player now tag w)) = sheet w /\
  sheet_calls (snd (fetch_player now tag w)) = sheet_calls w /\
  ui (snd (fetch_player now tag w)) = ui w.
Proof.
  rewrite fetch_unfold. unfold sent.
  destruct (cache_lookup now tag (cache w)); [now repeat split|].
  destruct (body_result now tag); destruct (encode_tag tag); now repeat split.
Qed.

Lemma requests_sent (now : Z) (tag : str) (w : World) :
  requests (sent now tag w) = requests w \/
  exists url, requests (sent now tag w) = requests w ++ [(now, url)].
Proof.
  unfold sent. destruct (encode_tag tag); [right; now eexists|now left].
Qed.

Lemma body_result_status (now : Z) (tag enc : str) (r : Response) :
  encode_tag tag = Ok enc ->
  http_get now (lit "https://api.brawlstars.com/v1/players/" ++ enc) = Ok r ->
  body_result now tag =
  if ((status_code r =? 403) || (status_code r =? 404))%Z then Ok []
  else if ((400 <=? status_code r) && (status_code r <? 600))%Z
       then Raise (HTTPError (status_code r))
       else match body r with
            | Some i => Ok i
            | None => Raise JSONDecodeError
            end.
Proof.
  intros He Hr.
  unfold body_result, fetch_player_body, session_get,
    raise_for_status, response_json.
  unfold bind, lift, modify, raise, ret.
  rewrite He, Hr.
  destruct ((status_code r =? 403) || (status_code r =? 404))%Z; [reflexivity|].
  destruct ((400 <=? status_code r) && (status_code r <? 600))%Z; [reflexivity|].
  destruct (body r); reflexivity.
Qed.

(** A body that returns had its tag encoded, so it sent its request. *)
Lemma body_result_ok_sent (now : Z) (tag : str) (v : info) (w : World) :
  body_result now tag = Ok v ->
  exists url, requests (sent now tag w) = requests w ++ [(now, url)].
Proof.
  unfold body_result, sent, fetch_player_body, bind, lift.
  destruct (encode_tag tag); [intros _; now eexists|discriminate].
Qed.

(** C2 (amended). A lookup that reaches the API (nothing fresh in the
    cache) and is answered with status 403 or 404 returns the empty
    mapping; answered with any other error status, that is any other status
    from 400 to 599, for which [raise_for_status] raises, it raises
    [HTTPError] and returns nothing; answered with a status outside 400 to
    599, success or not, it returns the decoded body, or raises the
    decoding error when the body is no JSON. *)
Theorem C2_lookup_status (now : Z) (tag enc : str) (r : Response) (w : World) :
  encode_tag tag = Ok enc ->
  http_get now (lit "https://api.brawlstars.com/v1/players/" ++ enc) = Ok r ->
  cache_lookup now tag (cache w) = None ->
  ((status_code r = 403 \/ status_code r = 404)%Z ->
   fst (fetch_player now tag w) = Ok []) /\
  ((400 <= status_code r < 600)%Z ->
   (status_code r <> 403)%Z -> (status_code r <> 404)%Z ->
   fst (fetch_player now tag w) = Raise (HTTPError (status_code r))) /\
  (~ (400 <= status_code r < 600)%Z ->
   fst (fetch_player now tag w) =
   match body r with
   | Some i => Ok i
   | None => Raise JSONDecodeError
   end).
Proof.
  intros He Hr Hc.
  fold (lookup now tag w). rewrite lookup_unfold, Hc.
  rewrite (body_result_status _ _ He Hr). split; [|split].
  - intros [H|H]; rewrite H; reflexivity.
  - intros Hrange H3 H4.
    replace (status_code r =? 403)%Z with false by (symmetry; apply Z.eqb_neq; assumption).
    replace (status_code r =? 404)%Z with false by (symmetry; apply Z.eqb_neq; assumption).
    replace (400 <=? status_code r)%Z with true by (symmetry; apply Z.leb_le; lia).
    replace (status_code r <? 600)%Z with true by (symmetry; apply Z.ltb_lt; lia).
    reflexivity.
  - intros Hout.
    replace (status_code r =? 403)%Z with false by (symmetry; apply Z.eqb_neq; lia).
    replace (status_code r =? 404)%Z with false by (symmetry; apply Z.eqb_neq; lia).
    replace ((400 <=? status_code r) && (status_code r <? 600))%Z with false;
      [reflexivity|].
    symmetry. apply andb_false_iff.
    rewrite Z.leb_gt, Z.ltb_ge. lia.
Qed.

Lemma cache_lookup_head (now t0 : Z) (tag : str) (v : info) c :
  cache_lookup now tag ((tag, (t0, v)) :: c) =
  if (now <? t0 + ttl)%Z then Some v else None.
Proof. simpl. now rewrite str_eqb_refl. Qed.

(** C4 (amended). When a first lookup of [tag] at [t1] returns, a second
    lookup at [t2] with [t1 <= t2 < t1 + 600] brings the requests sent by
    the two calls together to at most one.  If the first lookup fetched its
    result [v] from the API, the second returns [v] from the cache and
    leaves the world as it is; a lookup at [t1 + 600] or later sends a new
    request. *)
Theorem C4_cache_window (tag : str) (t1 t2 : Z) (w : World) (v : info) :
  fst (fetch_player t1 tag w) = Ok v ->
  let w1 := snd (fetch_player t1 tag w) in
  let w2 := snd (fetch_player t2 tag w1) in
  ((t1 <= t2 < t1 + 600)%Z ->
   List.length (requests w2) <= List.length (requests w) + 1) /\
  (cache_lookup t1 tag (cache w) = None ->
   (t1 <= t2 < t1 + 600)%Z ->
   fetch_player t2 tag w1 = (Ok v, w1)) /\
  (cache_lookup t1 tag (cache w) = None ->
   (t1 + 600 <= t2)%Z ->
   exists url, requests w2 = requests w1 ++ [(t2, url)]).
Proof.
  intros H1 w1 w2. subst w1 w2.
  rewrite (fetch_unfold t1 tag w) in *.
  destruct (cache_lookup t1 tag (cache w)) as [v0|] eqn:Ec.
  - (* the first call is served from the cache *)
    cbn [fst snd] in *. split; [|split; discriminate].
    intros _. rewrite fetch_unfold.
    destruct (cache_lookup t2 tag (cache w)); [cbn [snd]; lia|].
    destruct (body_result t2 tag); cbn [snd set_cache requests];
      destruct (requests_sent t2 tag w) as [->|[url ->]];
      rewrite ?length_app; simpl; lia.
  - (* the first call goes to the API *)
    destruct (body_result t1 tag) as [v1|e] eqn:Eb; [|discriminate].
    cbn [fst snd] in *. injection H1 as ->.
    destruct (body_result_ok_sent t1 tag w Eb) as [url1 Hs1].
    assert (Hfresh : (t1 <= t2 < t1 + 600)%Z ->
      fetch_player t2 tag (set_cache ((tag, (t1, v)) :: cache w) (sent t1 tag w)) =
      (Ok v, set_cache ((tag, (t1, v)) :: cache w) (sent t1 tag w))).
    { intros Ht. rewrite fetch_unfold. cbn [cache set_cache].
      rewrite cache_lookup_head.
      replace (t2 <? t1 + ttl)%Z with true
        by (symmetry; apply Z.ltb_lt; unfold ttl; lia).
      reflexivity. }
    split; [|split].
    + intros Ht. rewrite (Hfresh Ht). cbn [snd set_cache requests].
      rewrite Hs1, length_app. simpl. lia.
    + intros _ Ht. exact (Hfresh Ht).
    + intros _ Ht. rewrite fetch_unfold. cbn [cache set_cache].
      rewrite cache_lookup_head.
      replace (t2 <? t1 + ttl)%Z with false
        by (symmetry; apply Z.ltb_ge; unfold ttl; lia).
      assert (He : exists enc, encode_tag tag = Ok enc).
      { unfold body_result, fetch_player_body, bind, lift in Eb.
        destruct (encode_tag tag); [now eexists|discriminate]. }
      destruct He as [enc He].
      exists (lit "https://api.brawlstars.com/v1/players/" ++ enc).
      destruct (body_result t2 tag); cbn [snd set_cache requests];
        unfold sent at 1; rewrite He; reflexivity.
Qed.

End Lookup.

(* ================================================================== *)
(** * Search *)

Section Search.
Context {E : Env}.

Lemma lookup_after_fetch (now : Z) (k tag : str) (w : World) :
  lookup now tag (snd (fetch_player now k w)) = lookup now tag w.
Proof.
  rewrite !lookup_unfold, fetch_unfold.
  destruct (cache_lookup now k (cache w)) eqn:Ek; [reflexivity|].
  destruct (body_result now k) as [v|e] eqn:Eb; cbn [snd].
  - cbn [cache set_cache cache_lookup].
    destruct (str_eqb tag k) eqn:Et; [|reflexivity].
    apply str_eqb_eq in Et. subst k. rewrite Ek, Eb.
    replace (now <? now + ttl)%Z with true
      by (symmetry; apply Z.ltb_lt; unfold ttl; lia).
    reflexivity.
  - now rewrite cache_sent.
Qed.

Lemma matches_name (q tag s : str) (w : World) :
  matches q tag (JStr s) w =
  (Ok (contains (lower tag) q || contains (lower s) q), w).
Proof. unfold matches. now destruct (contains (lower tag) q). Qed.

Lemma search_loop_spec (now : Z) (q : str) (w0 : World) (items : list (str * Entry)) :
  forall (hits : list hit) (w : World),
    (forall tag, lookup now tag w = lookup now tag w0) ->
    (forall te, In te items ->
       exists i s, lookup now (fst te) w0 = Ok i /\ name_field i = JStr s) ->
    exists w',
      search_loop now q items hits w =
      (Ok (hits ++
           map (enriched now w0)
             (filter (fun te =>
                        contains (lower (fst te)) q
                        || contains (lower (name_text (enriched now w0 te))) q)
                     items)), w').
Proof.
  induction items as [|[tag e] rest IH]; intros hits w Hinv Hall.
  - exists w. simpl. now rewrite app_nil_r.
  - destruct (Hall (tag, e) (or_introl eq_refl)) as (i & s & Hi & Hs).
    cbn [fst] in Hi.
    cbn [search_loop]. unfold bind at 1.
    destruct (fetch_player now tag w) as [r w1] eqn:Ef.
    assert (Hr : r = Ok i).
    { rewrite <- Hi, <- Hinv. unfold lookup. now rewrite Ef. }
    assert (Hinv1 : forall t, lookup now t w1 = lookup now t w0).
    { intros t. rewrite <- Hinv.
      replace w1 with (snd (fetch_player now tag w)) by now rewrite Ef.
      apply lookup_after_fetch. }
    subst r. fold (name_field i). rewrite Hs.
    unfold bind at 1. rewrite matches_name.
    assert (Hen : enriched now w0 (tag, e) = (tag, JStr s, e)).
    { unfold enriched. cbn [fst snd]. now rewrite Hi, Hs. }
    destruct (IH (if contains (lower tag) q || contains (lower s) q
                  then hits ++ [(tag, JStr s, e)] else hits) w1 Hinv1)
      as [w' Hw'].
    { intros te Hte. apply Hall. now right. }
    exists w'. rewrite Hw'. cbn [filter fst].
    rewrite Hen. change (name_text (tag, JStr s, e)) with s.
    destruct (contains (lower tag) q || contains (lower s) q).
    + cbn [map]. rewrite ?Hen, <- app_assoc. reflexivity.
    + reflexivity.
Qed.

(** *** Substrings and character-wise lowercasing *)

Lemma startswith_prefixes (s : str) :
  forall q, startswith s q = true <-> In q (prefixes s).
Proof.
  induction s as [|y t IH]; intros [|x p]; cbn [startswith prefixes In].
  - tauto.
  - split; [discriminate|]. intros [H|[]]. discriminate.
  - tauto.
  - rewrite andb_true_iff, N.eqb_eq, IH, in_map_iff. split.
    + intros [-> H]. right. exists p. now split.
    + intros [H|(u & Hu & Hin)]; [discriminate|].
      injection Hu as -> ->. now split.
Qed.

Lemma contains_substrings (s : str) :
  forall q, contains s q = true <-> In q (substrings s).
Proof.
  induction s as [|y t IH]; intros q; cbn [contains substrings];
    rewrite orb_true_iff, in_app_iff, startswith_prefixes.
  - split; [intros [H|H]; [now left|discriminate] | intros [H|[]]; now left].
  - now rewrite IH.
Qed.

Lemma prefixes_map (f : N -> N) (s : str) :
  prefixes (map f s) = map (map f) (prefixes s).
Proof.
  induction s as [|c r IH]; [reflexivity|].
  cbn [map prefixes]. f_equal. rewrite IH, !map_map. reflexivity.
Qed.

Lemma substrings_map (f : N -> N) (s : str) :
  substrings (map f s) = map (map f) (substrings s).
Proof.
  induction s as [|c r IH]; [reflexivity|].
  change (substrings (map f (c :: r)))
    with (prefixes (map f (c :: r)) ++ substrings (map f r)).
  change (substrings (c :: r)) with (prefixes (c :: r) ++ substrings r).
  now rewrite map_app, IH, prefixes_map.
Qed.

Lemma prefixes_incl (s : str) : forall u, In u (prefixes s) -> incl u s.
Proof.
  induction s as [|c r IH]; intros u; cbn [prefixes In].
  - intros [<-|[]]. apply incl_nil_l.
  - intros [<-|H]; [apply incl_nil_l|].
    apply in_map_iff in H. destruct H as (v & <- & Hv).
    apply incl_cons; [now left|]. apply incl_tl. now apply IH.
Qed.

Lemma substrings_incl (s : str) : forall u, In u (substrings s) -> incl u s.
Proof.
  induction s as [|c r IH]; intros u; cbn [substrings]; rewrite in_app_iff.
  - intros [H|[]]. now apply prefixes_incl.
  - intros [H|H]; [now apply prefixes_incl|].
    apply incl_tl. now apply IH.
Qed.

Lemma lower_charwise (f : N -> N) (s : str) :
  charwise f s -> forall before, lower_from before s = map f s.
Proof.
  induction s as [|c r IH]; intros H before; [reflexivity|].
  cbn [lower_from map].
  pose proof (H before c r (or_introl eq_refl)) as Hc.
  unfold lower_at in Hc. rewrite Hc. cbn [app]. f_equal.
  apply IH. intros b d a Hd. apply H. now right.
Qed.

Lemma charwise_incl (f : N -> N) (u s : str) :
  incl u s -> charwise f s -> charwise f u.
Proof. intros Hi H b c a Hc. apply H. now apply Hi. Qed.

(** On text that lowercases character by character, the test of the code
    decides the case-insensitive substring relation. *)
Lemma ci_substring_charwise (f : N -> N) (q s : str) :
  charwise f q -> charwise f s ->
  ci_substring q s = contains (lower s) (lower q).
Proof.
  intros Hq Hs. apply eq_true_iff_eq.
  unfold ci_substring, ci_equal, lower.
  rewrite (lower_charwise Hq), (lower_charwise Hs).
  rewrite existsb_exists, contains_substrings, substrings_map, in_map_iff.
  split.
  - intros (u & Hu & He). exists u. split; [|exact Hu].
    apply str_eqb_eq in He.
    rewrite <- He. symmetry. apply lower_charwise.
    exact (charwise_incl (substrings_incl _ _ Hu) Hs).
  - intros (u & He & Hu). exists u. split; [exact Hu|].
    apply str_eqb_eq. rewrite <- He. apply lower_charwise.
    exact (charwise_incl (substrings_incl _ _ Hu) Hs).
Qed.

(** C5 (amended). When every entry's lookup returns and carries a text
    name, and lowercasing acts character by character on the trimmed
    query, the identifiers and the names, pressing search returns, in
    mapping order, exactly the entries for which the query with its
    surrounding whitespace removed is a case-insensitive substring of the
    identifier or of the display name: some run of the identifier or of the
    name equals it when case is ignored.  The queries xyz and XYZ are
    case-insensitive substrings of the identifiers #XYZ123 and #xyz123. *)
Theorem C5_search (now : Z) (query : str) (w : World) (f : N -> N) :
  (forall te, In te (entries w) ->
     exists i s, lookup now (fst te) w = Ok i /\ name_field i = JStr s) ->
  charwise f (strip query) ->
  (forall te, In te (entries w) ->
     charwise f (fst te) /\ charwise f (name_text (enriched now w te))) ->
  (exists w',
     search_hits now query w =
     (Ok (map (enriched now w)
            (filter (fun te =>
                       ci_substring (strip query) (fst te)
                       || ci_substring (strip query) (name_text (enriched now w te)))
                    (entries w))), w')) /\
  ci_substring (strip (lit "xyz")) (lit "#XYZ123") = true /\
  ci_substring (strip (lit "XYZ")) (lit "#XYZ123") = true /\
  ci_substring (strip (lit "xyz")) (lit "#xyz123") = true /\
  ci_substring (strip (lit "XYZ")) (lit "#xyz123") = true.
Proof.
  intros Hall Hq Hent. split; [|repeat split].
  unfold search_hits, bind, get_world.
  destruct (@search_loop_spec now (lower (strip query)) w (entries w) [] w
              (fun _ => eq_refl) Hall) as [w' Hw'].
  exists w'. rewrite Hw'. cbn [app]. do 3 f_equal.
  apply filter_ext_in. intros te Hte.
  destruct (Hent te Hte) as [Ht Hn].
  now rewrite (ci_substring_charwise Hq Ht), (ci_substring_charwise Hq Hn).
Qed.

End Search.

(* ================================================================== *)
(** * Create mode *)

Section Create.
Context {E : Env}.

Lemma render_fields (l : list element) (w : World) :
  entries (render l w) = entries w /\
  sheet (render l w) = sheet w /\
  sheet_calls (render l w) = sheet_calls w /\
  cache (render l w) = cache w /\
  requests (render l w) = requests w /\
  ui (render l w) = ui w ++ l.
Proof.
  revert w; induction l as [|e l IH]; intros w.
  - simpl. now rewrite app_nil_r.
  - change (render (e :: l) w) with (render l (add_ui e w)).
    destruct (IH (add_ui e w)) as (H1 & H2 & H3 & H4 & H5 & H6).
    rewrite H1, H2, H3, H4, H5, H6. simpl. now rewrite <- app_assoc.
Qed.

Lemma lookup_render (now : Z) (tag : str) (l : list element) (w : World) :
  lookup now tag (render l w) = lookup now tag w.
Proof.
  rewrite !lookup_unfold.
  now destruct (render_fields l w) as (_ & _ & _ & -> & _).
Qed.

Lemma add_handler_unfold (now : Z) (raw : str) (rs : list str) (nt : str)
  (w : World) :
  add_handler now raw rs nt w =
  match fetch_player now (normalize_tag raw) w with
  | (Raise e, w1) => (Raise e, w1)
  | (Ok i, w1) =>
      match rs with
      | [] => (Ok tt, add_ui (ErrorBox (lit "タグと理由は必須です")) w1)
      | _ =>
          match i with
          | [] => (Ok tt, add_ui (ErrorBox (lit "有効なタグを入力してください")) w1)
          | _ =>
              (Ok tt,
               add_ui (SuccessBox (normalize_tag raw ++ lit " を追加しました："
                                   ++ py_str (dict_get (lit "name") i)))
                 (snd (save_entries_to_sheet
                         (dict_set (normalize_tag raw) (mkEntry rs nt) (entries w1))
                         (set_entries
                            (dict_set (normalize_tag raw) (mkEntry rs nt) (entries w1))
                            w1))))
          end
      end
  end.
Proof.
  unfold add_handler, bind at 1.
  destruct (fetch_player now (normalize_tag raw) w) as [[i|e] w1]; [|reflexivity].
  destruct (normalize_tag_marker raw) as [r Hr].
  destruct (normalize_tag raw) as [|c t] eqn:Etag; [discriminate|].
  destruct rs as [|r0 rs]; [reflexivity|].
  destruct i as [|kv i]; [reflexivity|].
  unfold bind, modify, get_world, emit. rewrite !save_unfold. reflexivity.
Qed.

Lemma create_mode_add (now : Z) (inp : CreateInput) (w : World) :
  in_pwd inp = PASSWORD ->
  in_submit inp = Some SubmitAdd ->
  create_mode now inp w =
  add_handler now (strip (in_tag inp)) (in_reasons inp) (in_note inp)
    (render add_page w).
Proof.
  intros Hp Hs. unfold create_mode.
  rewrite Hp, str_eqb_refl, Hs. reflexivity.
Qed.

Lemma create_mode_locked (now : Z) (inp : CreateInput) (w : World) :
  in_pwd inp <> PASSWORD ->
  create_mode now inp w = (Ok tt, render locked_page w).
Proof.
  intros Hp. unfold create_mode.
  rewrite (str_eqb_neq Hp). reflexivity.
Qed.

End Create.

Section CreateFlow.
Context {E : Env}.

Lemma fetch_on_page (now : Z) (tag : str) (l : list element) (w : World) :
  exists w1,
    fetch_player now tag (render l w) = (lookup now tag w, w1) /\
    entries w1 = entries w /\ sheet w1 = sheet w /\
    sheet_calls w1 = sheet_calls w /\ ui w1 = ui w ++ l.
Proof.
  exists (snd (fetch_player now tag (render l w))).
  destruct (fetch_frame now tag (render l w)) as (H1 & H2 & H3 & H4).
  destruct (render_fields l w) as (R1 & R2 & R3 & _ & _ & R6).
  rewrite H1, H2, H3, H4, R1, R2, R3, R6.
  repeat split. rewrite <- (lookup_render now tag l w). unfold lookup.
  now destruct (fetch_player now tag (render l w)).
Qed.

(** C9. When the password typed into the create page differs from the
    configured one, the run returns having rendered the header, the
    password input and the error box, none of which is a mutation control,
    and it leaves the mapping, the worksheet, the calls made to it, the
    cache and the request log exactly as they were. *)
Theorem C9_create_gate (now : Z) (inp : CreateInput) (w : World) :
  in_pwd inp <> PASSWORD ->
  let w' := snd (create_mode now inp w) in
  fst (create_mode now inp w) = Ok tt /\
  ui w' =
    ui w ++ [Header (lit "➕ 新規追加"); TextInput (lit "パスワード");
             ErrorBox (lit "パスワードが違います")] /\
  (forall e, In e (ui w') -> ~ In e (ui w) -> mutation_control e = false) /\
  entries w' = entries w /\
  sheet w' = sheet w /\
  sheet_calls w' = sheet_calls w /\
  cache w' = cache w /\
  requests w' = requests w.
Proof.
  intros Hp w'. subst w'. rewrite create_mode_locked by assumption. cbn [fst snd].
  destruct (render_fields locked_page w) as (R1 & R2 & R3 & R4 & R5 & R6).
  rewrite R1, R2, R3, R4, R5, R6. repeat split.
  intros e Hin Hnew. apply in_app_or in Hin as [Hin|Hin]; [contradiction|].
  unfold locked_page in Hin. cbn [In] in Hin.
  destruct Hin as [<-|[<-|[<-|[]]]]; reflexivity.
Qed.

(** C3 (amended). A submission of the add form with the matching password
    that selects no reason, or whose lookup returns the empty mapping,
    leaves the mapping and the worksheet unchanged and makes no call to
    the worksheet.  Whenever the lookup returns, a submission without
    reasons ends with the error box for missing tag or reasons, and one
    with reasons whose lookup is empty ends with the error box for an
    invalid tag. *)
Theorem C3_create_rejects (now : Z) (inp : CreateInput) (w : World) :
  in_pwd inp = PASSWORD ->
  in_submit inp = Some SubmitAdd ->
  let tag := normalize_tag (strip (in_tag inp)) in
  let w' := snd (create_mode now inp w) in
  (in_reasons inp = [] \/ lookup now tag w = Ok [] ->
   entries w' = entries w /\ sheet w' = sheet w /\
   sheet_calls w' = sheet_calls w) /\
  (forall i, lookup now tag w = Ok i -> in_reasons inp = [] ->
   fst (create_mode now inp w) = Ok tt /\
   ui w' = ui w ++ add_page ++ [ErrorBox (lit "タグと理由は必須です")]) /\
  (lookup now tag w = Ok [] -> in_reasons inp <> [] ->
   fst (create_mode now inp w) = Ok tt /\
   ui w' = ui w ++ add_page ++ [ErrorBox (lit "有効なタグを入力してください")]).
Proof.
  intros Hp Hs tag w'. subst tag w'.
  rewrite create_mode_add by assumption. rewrite add_handler_unfold.
  destruct (fetch_on_page now (normalize_tag (strip (in_tag inp))) add_page w)
    as (w1 & Hf & H1 & H2 & H3 & H4).
  rewrite Hf.
  destruct (lookup now (normalize_tag (strip (in_tag inp))) w) as [i|e].
  - destruct (in_reasons inp) as [|r rs].
    + cbn [fst snd add_ui entries sheet sheet_calls ui].
      rewrite H1, H2, H3, H4, <- app_assoc.
      split; [intros _; now split|].
      split; [intros i0 _ _; now split|].
      intros _ Hne. now contradiction Hne.
    + destruct i as [|kv i].
      * cbn [fst snd add_ui entries sheet sheet_calls ui].
        rewrite H1, H2, H3, H4, <- app_assoc.
        split; [intros _; now split|].
        split; [intros i0 _ Hrs; discriminate Hrs|].
        intros _ _. now split.
      * split; [intros [H|H]; discriminate H|].
        split; [intros i0 _ Hrs; discriminate Hrs|].
        intros H. discriminate H.
  - cbn [fst snd]. rewrite H1, H2, H3.
    split; [intros _; now split|].
    split; [intros i0 H; discriminate H|intros H; discriminate H].
Qed.

(** C10. [normalize_tag] always returns a non-empty string beginning with
    the marker, and returns the marker alone for an empty or all-whitespace
    input.  In the add handler, once the lookup has returned, the error box
    for missing tag or reasons appears exactly when no reason is selected;
    with a reason selected the submission is rejected exactly when the
    lookup is empty, and is otherwise stored under the normalized tag. *)
Theorem C10_marker_always :
  (forall raw : str,
     normalize_tag raw <> [] /\ startswith (normalize_tag raw) (lit "#") = true) /\
  (forall raw : str, forallb isspace raw = true -> normalize_tag raw = lit "#") /\
  (forall (now : Z) (raw : str) (rs : list str) (nt : str) (w : World) (i : info),
     lookup now (normalize_tag raw) w = Ok i ->
     let w1 := snd (fetch_player now (normalize_tag raw) w) in
     (rs = [] ->
      add_handler now raw rs nt w =
      (Ok tt, add_ui (ErrorBox (lit "タグと理由は必須です")) w1)) /\
     (rs <> [] -> i = [] ->
      add_handler now raw rs nt w =
      (Ok tt, add_ui (ErrorBox (lit "有効なタグを入力してください")) w1)) /\
     (rs <> [] -> i <> [] ->
      fst (add_handler now raw rs nt w) = Ok tt /\
      entries (snd (add_handler now raw rs nt w)) =
      dict_set (normalize_tag raw) (mkEntry rs nt) (entries w))).
Proof.
  split; [|split].
  - intros raw. destruct (normalize_tag_marker raw) as [r Hr]. rewrite Hr.
    split; [discriminate|]. rewrite lit_hash. apply startswith_hash. now eexists.
  - intros raw Hsp. rewrite normalize_tag_unfold, strip_all_space by assumption.
    reflexivity.
  - intros now raw rs nt w i Hi w1. subst w1.
    rewrite add_handler_unfold.
    pose proof (fetch_frame now (normalize_tag raw) w) as (H1 & _).
    unfold lookup in Hi.
    destruct (fetch_player now (normalize_tag raw) w) as [r w1].
    cbn [fst snd] in *. subst r.
    split; [|split].
    + intros ->. reflexivity.
    + intros Hrs ->. destruct rs; [contradiction|reflexivity].
    + intros Hrs Hne. destruct rs; [contradiction|].
      destruct i; [contradiction|].
      rewrite save_unfold. cbn [fst snd add_ui entries set_entries].
      now rewrite H1.
Qed.

End CreateFlow.

(* ================================================================== *)
(** * Instances and counterexamples *)

Ltac by_eval := vm_compute; reflexivity.

Ltac distinct_keys :=
  unfold wf_dict; vm_compute;
  repeat (constructor; [intros H; repeat destruct H as [H|H]; try discriminate H; assumption|]);
  constructor.



Lemma C1_roundtrip_witness :
  @Gspread.load_entries_from_sheet decimal_numbers
    (snd (save_entries_to_sheet two_entries empty_world)) =
  (Ok (as_loaded two_entries), snd (save_entries_to_sheet two_entries empty_world)).
Proof.
  apply (proj1 (@C1_roundtrip decimal_numbers) two_entries empty_world).
  - distinct_keys.
  - unfold comma_free. vm_compute.
    repeat (constructor; try (intros H; repeat destruct H as [H|H]; try discriminate H; assumption)).
  - unfold no_blank_reasons. vm_compute.
    repeat (constructor; try discriminate).
  - unfold text_cells, two_entries.
    repeat (apply Forall_cons; [repeat split; vm_compute; reflexivity|]).
    apply Forall_nil.
  - vm_compute. reflexivity.
Defined.

(** C1, as stated, fails in three ways.  An entry whose reasons list is
    the single empty string has no comma in any reason, yet it is saved as
    an empty cell and loaded back with no reasons at all.  An entry whose
    one reason is 5 and whose note is 12 has no comma in any reason either,
    yet loading what was saved raises [AttributeError], because the reasons
    cell is read as the number 5.  And a mapping whose only entry has the
    empty tag, no reasons and the empty note is written as a row of empty
    cells, which the service does not hand back: the load returns the empty
    mapping. *)
Lemma C1_counterexample :
  (wf_dict blank_reason_entries /\
   comma_free blank_reason_entries /\
   fst (@Gspread.load_entries_from_sheet decimal_numbers
          (snd (save_entries_to_sheet blank_reason_entries empty_world))) =
     Ok [(Text (lit "#A"), mkLoaded [] (Text (lit "")))] /\
   fst (@Gspread.load_entries_from_sheet decimal_numbers
          (snd (save_entries_to_sheet blank_reason_entries empty_world))) <>
     Ok (as_loaded blank_reason_entries)) /\
  (wf_dict numeric_entries /\
   comma_free numeric_entries /\
   sheet (snd (save_entries_to_sheet numeric_entries empty_world)) =
     [[lit "tag"; lit "reasons"; lit "note"]; [lit "#A"; lit "5"; lit "12"]] /\
   fst (@Gspread.load_entries_from_sheet decimal_numbers
          (snd (save_entries_to_sheet numeric_entries empty_world))) =
     Raise AttributeError) /\
  (wf_dict blank_entries /\
   comma_free blank_entries /\
   sheet (snd (save_entries_to_sheet blank_entries empty_world)) =
     [[lit "tag"; lit "reasons"; lit "note"]; [lit ""; lit ""; lit ""]] /\
   fst (@Gspread.load_entries_from_sheet decimal_numbers
          (snd (save_entries_to_sheet blank_entries empty_world))) = Ok [] /\
   as_loaded blank_entries <> []).
Proof.
  split; [|split].
  - split; [distinct_keys|]. split.
    + unfold comma_free. vm_compute. repeat constructor. intros [].
    + split; [by_eval|]. vm_compute. discriminate.
  - split; [distinct_keys|]. split.
    + unfold comma_free. vm_compute. repeat constructor.
      intros H; repeat destruct H as [H|H]; try discriminate H; assumption.
    + split; by_eval.
  - split; [distinct_keys|]. split.
    + unfold comma_free. vm_compute. repeat constructor.
    + split; [by_eval|]. split; [by_eval|]. vm_compute. discriminate.
Qed.

Lemma C8_delete_flow_witness :
  fst (delete_handler ListPage (lit "#ABC") two_entry_world) = Ok tt /\
  entries (snd (delete_handler ListPage (lit "#ABC") two_entry_world)) =
    [(lit "#XYZ", mkEntry [lit "デブ"; lit "神"] (lit "watch"))] /\
  dict_get (lit "#XYZ")
    (entries (snd (delete_handler ListPage (lit "#ABC") two_entry_world))) =
    dict_get (lit "#XYZ") (entries two_entry_world) /\
  exists d,
    @Gspread.load_entries_from_sheet decimal_numbers
      (snd (delete_handler ListPage (lit "#ABC") two_entry_world)) =
    (Ok d, snd (delete_handler ListPage (lit "#ABC") two_entry_world)) /\
    ~ In (Text (lit "#ABC")) (map fst d).
Proof.
  assert (Hwf : wf_dict (entries two_entry_world)) by distinct_keys.
  assert (Hin : In (lit "#ABC") (keys (entries two_entry_world)))
    by (left; by_eval).
  assert (Hne : lit "#XYZ" <> lit "#ABC") by (vm_compute; discriminate).
  assert (Hread : @reasons_readable decimal_numbers (entries two_entry_world)).
  { unfold reasons_readable, two_entry_world, two_entries. cbn [entries].
    repeat (apply Forall_cons; [vm_compute; reflexivity|]). apply Forall_nil. }
  destruct (@C8_delete_flow decimal_numbers ListPage two_entry_world (lit "#ABC")
              Hwf Hin)
    as (H1 & H2 & H3 & _ & _ & _ & _ & H8).
  split; [exact H1|]. split; [rewrite H2; by_eval|].
  split; [exact (H3 _ Hne)|exact (H8 Hread)].
Defined.

Lemma C2_lookup_status_witness :
  fst (@fetch_player env_404 0 (lit "#A") empty_world) = Ok [] /\
  fst (@fetch_player env_500 0 (lit "#A") empty_world) = Raise (HTTPError 500) /\
  fst (@fetch_player env_304 0 (lit "#A") empty_world) = Ok bob.
Proof.
  split; [|split].
  - apply (proj1 (@C2_lookup_status env_404 0 (lit "#A") (lit "%23A")
                    (mkResponse 404 None) empty_world eq_refl eq_refl eq_refl)).
    now right.
  - apply (proj1 (proj2 (@C2_lookup_status env_500 0 (lit "#A") (lit "%23A")
                    (mkResponse 500 None) empty_world eq_refl eq_refl eq_refl)));
      simpl; lia.
  - apply (proj2 (proj2 (@C2_lookup_status env_304 0 (lit "#A") (lit "%23A")
                    (mkResponse 304 (Some bob)) empty_world
                    eq_refl eq_refl eq_refl))).
    simpl. lia.
Defined.

(** C2, as stated, fails: status 304 is no success and is neither 403 nor
    404, yet the lookup answered with it raises nothing and returns the
    body, because [raise_for_status] raises from 400 to 599 only. *)
Lemma C2_counterexample :
  @http_get env_304 0 (lit "https://api.brawlstars.com/v1/players/%23A") =
    Ok (mkResponse 304 (Some bob)) /\
  @encode_tag env_304 (lit "#A") = Ok (lit "%23A") /\
  fst (@fetch_player env_304 0 (lit "#A") empty_world) = Ok bob.
Proof. repeat split; by_eval. Qed.

Lemma C4_cache_window_witness :
  @fetch_player env_200 10 (lit "#ABC")
    (snd (@fetch_player env_200 0 (lit "#ABC") empty_world)) =
  (Ok bob, snd (@fetch_player env_200 0 (lit "#ABC") empty_world)).
Proof.
  apply (proj1 (proj2 (@C4_cache_window env_200 (lit "#ABC") 0 10 empty_world bob
                         eq_refl))).
  - reflexivity.
  - lia.
Defined.

(** C4, as stated, fails: when the API answers 500 nothing is cached, and
    two lookups of one tag one second apart both raise and send two
    requests. *)
Lemma C4_counterexample :
  (0 <= 1 < 0 + 600)%Z /\
  fst (@fetch_player env_500 0 (lit "#A") empty_world) = Raise (HTTPError 500) /\
  fst (@fetch_player env_500 1 (lit "#A")
         (snd (@fetch_player env_500 0 (lit "#A") empty_world))) =
    Raise (HTTPError 500) /\
  List.length
    (requests (snd (@fetch_player env_500 1 (lit "#A")
                      (snd (@fetch_player env_500 0 (lit "#A") empty_world))))) = 2.
Proof. split; [lia|]. repeat split; by_eval. Qed.

Lemma ascii_charwise (pw : str) (api : Z -> str -> result Response) (s : str) :
  @charwise (ascii_env pw api)
    (fun c => if (c <? 128)%N then ascii_lower c else c) s.
Proof.
  intros b c a _. unfold lower_at. cbn [lower_u ascii_env].
  now destruct (c <? 128)%N.
Qed.

Lemma C5_search_witness :
  exists w',
    @search_hits env_200 0 (lit " bO ") one_entry_world =
    (Ok [(lit "#ABC", JStr (lit "Bob"), mkEntry [lit "神"] (lit ""))], w').
Proof.
  assert (Hall : forall te, In te (entries one_entry_world) ->
            exists i s, @lookup env_200 0 (fst te) one_entry_world = Ok i /\
                        name_field i = JStr s).
  { intros te [<-|[]]. exists bob, (lit "Bob"). split; by_eval. }
  destruct (proj1 (@C5_search env_200 0 (lit " bO ") one_entry_world _ Hall
                     (ascii_charwise _ _ _)
                     (fun te _ => conj (ascii_charwise _ _ _)
                                       (ascii_charwise _ _ _))))
    as [w' Hw'].
  exists w'. rewrite Hw'. f_equal.
Defined.

(** C5, as stated, fails in both directions.  A query of one space is no
    case-insensitive substring of #ABC or of the empty display name, yet
    the entry is a hit, because the query is trimmed to the empty string
    first.  And where a capital sigma lowercases to the final sigma at the
    end of a string only, the query ΑΣ is a case-insensitive substring of
    the display name ΑΣΑ, its first two characters, yet the entry is no
    hit, because the lowercased query is compared with the lowercased
    name. *)
Lemma C5_counterexample :
  (fst (@search_hits env_404 0 (lit " ") one_entry_world) =
     Ok [(lit "#ABC", JStr (lit ""), mkEntry [lit "神"] (lit ""))] /\
   @ci_substring env_404 (lit " ") (lit "#ABC") = false /\
   @ci_substring env_404 (lit " ") (lit "") = false) /\
  (@lookup env_greek 0 (lit "#ABC") one_entry_world = Ok greek_profile /\
   @ci_substring env_greek (lit "ΑΣ") (lit "ΑΣΑ") = true /\
   strip (lit "ΑΣ") = lit "ΑΣ" /\
   fst (@search_hits env_greek 0 (lit "ΑΣ") one_entry_world) = Ok []).
Proof. repeat split; by_eval. Qed.

Lemma ascii_tables_ok (pw : str) (api : Z -> str -> result Response) :
  @upper_table_ok (ascii_env pw api).
Proof.
  intros c Hc. cbn [upper_u ascii_env]. repeat split.
  - discriminate.
  - intros d [<-|[]]. reflexivity.
  - unfold upper. cbn [flat_map]. rewrite app_nil_r. unfold upper_cp.
    replace (c <? 128)%N with false by (symmetry; apply N.ltb_ge; exact Hc).
    reflexivity.
Qed.

Lemma C6_normalize_idempotent_witness :
  @normalize_tag env_404 (@normalize_tag env_404 (lit "  abc ")) =
  @normalize_tag env_404 (lit "  abc ").
Proof.
  exact (proj1 (@C6_normalize_idempotent env_404 (lit "  abc ")
                  (ascii_tables_ok (lit "Debu") api_404))).
Defined.

Lemma C9_create_gate_witness :
  fst (@create_mode env_200 0 submit_wrong_password empty_world) = Ok tt /\
  entries (snd (@create_mode env_200 0 submit_wrong_password empty_world)) = [] /\
  sheet_calls (snd (@create_mode env_200 0 submit_wrong_password empty_world)) = [].
Proof.
  assert (Hp : in_pwd submit_wrong_password <> @PASSWORD env_200)
    by (vm_compute; discriminate).
  destruct (@C9_create_gate env_200 0 submit_wrong_password empty_world Hp)
    as (H1 & _ & _ & H4 & _ & H6 & _).
  split; [exact H1|]. split; [exact H4|exact H6].
Defined.

Lemma C3_create_rejects_witness :
  entries (snd (@create_mode env_404 0 submit_with_reason empty_world)) = [] /\
  sheet (snd (@create_mode env_404 0 submit_with_reason empty_world)) = [] /\
  sheet_calls (snd (@create_mode env_404 0 submit_with_reason empty_world)) = [].
Proof.
  apply (proj1 (@C3_create_rejects env_404 0 submit_with_reason empty_world
                  eq_refl eq_refl)).
  right. by_eval.
Defined.

(** C3, as stated, fails: with no reason selected and the API answering
    500, the handler raises from the lookup, which runs before the
    validation, and no error box is rendered. *)
Lemma C3_counterexample :
  in_pwd submit_no_reasons = @PASSWORD env_500 /\
  in_submit submit_no_reasons = Some SubmitAdd /\
  in_reasons submit_no_reasons = [] /\
  fst (@create_mode env_500 0 submit_no_reasons empty_world) =
    Raise (HTTPError 500) /\
  forall msg,
    ~ In (ErrorBox msg)
         (ui (snd (@create_mode env_500 0 submit_no_reasons empty_world))).
Proof.
  repeat split; try by_eval.
  intros msg H. vm_compute in H.
  repeat destruct H as [H|H]; try discriminate H; assumption.
Qed.

Lemma C10_marker_always_witness :
  @normalize_tag env_404 (lit "  ") = lit "#" /\
  @add_handler env_404 0 (lit "") [lit "神"] (lit "") empty_world =
  (Ok tt,
   add_ui (ErrorBox (lit "有効なタグを入力してください"))
     (snd (@fetch_player env_404 0 (@normalize_tag env_404 (lit "")) empty_world))).
Proof.
  split.
  - apply (proj1 (proj2 (@C10_marker_always env_404))). by_eval.
  - apply (proj2 (proj2 (@C10_marker_always env_404))
             0%Z (lit "") [lit "神"] (lit "") empty_world []).
    + by_eval.
    + discriminate.
    + reflexivity.
Defined.

(* ================================================================== *)
(** * Further properties: dictionaries *)

Section DictMore.
Variable V : Type.
Implicit Types (d : dict V) (k : str) (v : V).

Lemma dict_get_absent k d : dict_get k d = None -> ~ In k (keys d).
Proof.
  intros H Hin. destruct (dict_get_present _ _ Hin) as [v Hv]. congruence.
Qed.

Lemma dict_get_some_in k d v : dict_get k d = Some v -> In k (keys d).
Proof.
  induction d as [|[k0 v0] d IH]; simpl; [discriminate|].
  destruct (str_eqb k k0) eqn:Eq.
  - apply str_eqb_eq in Eq. subst. now left.
  - intros H. right. now apply IH.
Qed.

Lemma dict_get_set_same k v d : dict_get k (dict_set k v d) = Some v.
Proof.
  induction d as [|[k0 v0] d IH]; simpl.
  - now rewrite str_eqb_refl.
  - destruct (str_eqb k k0) eqn:Eq; simpl.
    + now rewrite str_eqb_refl.
    + now rewrite Eq.
Qed.

Lemma dict_get_set_other k k' v d :
  k' <> k -> dict_get k' (dict_set k v d) = dict_get k' d.
Proof.
  intros Hne. induction d as [|[k0 v0] d IH]; simpl.
  - now rewrite (str_eqb_neq Hne).
  - destruct (str_eqb k k0) eqn:Eq; simpl.
    + apply str_eqb_eq in Eq. subst k0. now rewrite (str_eqb_neq Hne).
    + now rewrite IH.
Qed.

Lemma keys_dict_set_present k v d :
  In k (keys d) -> keys (dict_set k v d) = keys d.
Proof.
  induction d as [|[k0 v0] d IH]; simpl; [contradiction|].
  destruct (str_eqb k k0) eqn:Eq; simpl.
  - apply str_eqb_eq in Eq. now subst.
  - intros [H|H]; [subst; now rewrite str_eqb_refl in Eq|].
    f_equal. now apply IH.
Qed.

Lemma dict_set_wf k v d : wf_dict d -> wf_dict (dict_set k v d).
Proof.
  intros Hwf. destruct (in_dec (list_eq_dec N.eq_dec) k (keys d)) as [Hin|Hout].
  - unfold wf_dict. now rewrite keys_dict_set_present.
  - rewrite dict_set_fresh by assumption. unfold wf_dict, keys in *.
    rewrite map_app. simpl. apply NoDup_app; [assumption| |].
    + constructor; [tauto|constructor].
    + intros x Hx [<-|[]]. contradiction.
Qed.

Lemma dict_set_set k v1 v2 d :
  dict_set k v2 (dict_set k v1 d) = dict_set k v2 d.
Proof.
  induction d as [|[k0 v0] d IH]; simpl.
  - now rewrite str_eqb_refl.
  - destruct (str_eqb k k0) eqn:Eq; simpl.
    + now rewrite str_eqb_refl.
    + now rewrite Eq, IH.
Qed.

Lemma dict_get_app k (a b : dict V) :
  dict_get k (a ++ b) =
  match dict_get k a with
  | Some v => Some v
  | None => dict_get k b
  end.
Proof.
  induction a as [|[k0 v0] a IH]; simpl; [reflexivity|].
  now destruct (str_eqb k k0).
Qed.

(** In a dictionary built by successive insertion, a key holds the value of
    its last pair. *)
Lemma dict_get_fold k (l : list (str * V)) d :
  dict_get k (fold_left (fun a kv => dict_set (fst kv) (snd kv) a) l d) =
  match dict_get k (rev l) with
  | Some v => Some v
  | None => dict_get k d
  end.
Proof.
  revert d; induction l as [|[k0 v0] l IH]; intros d; simpl; [reflexivity|].
  rewrite IH, dict_get_app. simpl.
  destruct (dict_get k (rev l)); [reflexivity|].
  destruct (str_eqb k k0) eqn:Eq.
  - apply str_eqb_eq in Eq. subst. apply dict_get_set_same.
  - apply dict_get_set_other. now apply str_eqb_false.
Qed.

Lemma fold_set_wf (l : list (str * V)) d :
  wf_dict d ->
  wf_dict (fold_left (fun a kv => dict_set (fst kv) (snd kv) a) l d).
Proof.
  revert d; induction l as [|[k0 v0] l IH]; intros d H; simpl; [assumption|].
  apply IH. now apply dict_set_wf.
Qed.

End DictMore.

(* ================================================================== *)
(** * Further properties: the entry store *)

Lemma keys_combine (A : Type) (h : list str) (row : list A) (k : str) :
  In k (keys (combine h row)) -> In k h.
Proof.
  unfold keys. intros H. apply in_map_iff in H as [[k0 v0] [<- Hin]].
  now apply in_combine_l in Hin.
Qed.

Lemma join_parse (s : str) : join (lit ",") (parse_reasons s) = s.
Proof.
  rewrite lit_comma. destruct s as [|c s]; [reflexivity|].
  unfold parse_reasons. apply join_split.
Qed.

Lemma entry_row_reparse (x : dict Entry) :
  map entry_row (map (fun te => (fst te, reparse (snd te))) x) = map entry_row x.
Proof.
  rewrite map_map. apply map_ext. intros [k e].
  unfold entry_row, reparse. cbn [fst snd reasons note].
  now rewrite join_parse.
Qed.

Lemma unique_app (l m : list str) :
  Gspread.unique (l ++ m) = true -> Gspread.unique l = true.
Proof.
  induction l as [|x l IH]; [reflexivity|].
  cbn [app Gspread.unique]. rewrite !andb_true_iff, !negb_true_iff.
  intros [Hx Hl]. split; [|now apply IH].
  rewrite existsb_app in Hx. now apply orb_false_iff in Hx.
Qed.

Lemma trim_row_blank (r : list str) :
  Forall (fun c => c = []) r -> Gspread.trim_row r = [].
Proof.
  induction r as [|c r IH]; [reflexivity|].
  intros H. inversion H as [|x l Hc Hr]; subst.
  cbn [Gspread.trim_row]. now rewrite (IH Hr).
Qed.

Lemma trim_rows_blank (g : grid) :
  Forall (Forall (fun c => c = [])) g -> Gspread.trim_rows g = [].
Proof.
  induction g as [|r g IH]; [reflexivity|].
  intros H. inversion H as [|x l Hr Hg]; subst.
  cbn [Gspread.trim_rows]. now rewrite (trim_row_blank Hr), (IH Hg).
Qed.

Lemma pad_full (r : list str) : Gspread.pad (List.length r) r = r.
Proof.
  unfold Gspread.pad. rewrite Nat.sub_diag. apply app_nil_r.
Qed.

Section ReaderMore.
Context {G : Numbers}.

(** X2. When several rows under the header carry the same tag, read as
    text, and every reasons cell is text or reads as zero, the loaded
    mapping has text keys and its entry for a tag is the one of the last
    row with that tag, among the rows up to the last one that is not
    entirely empty. *)
Theorem X2_load_last_row_wins (rows : list (str * str * str)) (w : World) :
  sheet w = header_row :: map (fun '(t, r, n) => [t; r; n]) rows ->
  Forall (fun '(t, r, n) =>
            Gspread.number_like t = false /\
            (Gspread.number_like r = false \/ numeric_zero r = true))
         rows ->
  exists d,
    Gspread.load_entries_from_sheet w = (Ok (text_keys d), w) /\
    forall t,
      dict_get t d =
      dict_get t (rev (map (fun row => (fst (fst row), snd (loaded_row row)))
                           (live rows))).
Proof.
  intros Hs H.
  exists (dict_of_pairs
            (map (fun row => (fst (fst row), snd (loaded_row row))) (live rows))).
  split.
  - rewrite (@gs_load_rows _ rows w Hs).
    + rewrite <- loaded_of_pairs_text. do 3 f_equal.
      unfold text_keys. rewrite map_map. apply map_ext_in.
      intros [[t r] n] Hin. apply live_incl in Hin. rewrite Forall_forall in H.
      destruct (H _ Hin) as [Ht _]. cbn [fst snd loaded_row].
      now rewrite (numericise_text _ Ht).
    + revert H. apply Forall_impl. intros [[t r] n] [_ Hr]. cbn [fst snd].
      unfold splittable. destruct Hr as [-> | ->]; [reflexivity|apply orb_true_r].
  - intros t. unfold dict_of_pairs. rewrite dict_get_fold.
    now destruct (dict_get t _).
Qed.

(** X3. A worksheet of empty cells only loads as the empty mapping, and
    so does a worksheet whose first row names no column twice and whose
    other rows hold empty cells only; a first row that names a column twice
    makes the load raise [GSpreadException]; when a data row is handed over
    and the first row names no column twice and has no tag column, the load
    raises [KeyError] for tag. *)
Theorem X3_load_edges (w : World) :
  (Forall (Forall (fun c => c = [])) (sheet w) ->
   Gspread.load_entries_from_sheet w = (Ok [], w)) /\
  (forall h rows,
     sheet w = h :: rows ->
     Forall (Forall (fun c => c = [])) rows ->
     Gspread.unique (Gspread.trim_row h) = true ->
     Gspread.load_entries_from_sheet w = (Ok [], w)) /\
  (forall h rows,
     sheet w = h :: rows -> Gspread.unique (Gspread.trim_row h) = false ->
     Gspread.load_entries_from_sheet w = (Raise GSpreadException, w)) /\
  (forall head row rows,
     Gspread.get_all_values (sheet w) = head :: row :: rows ->
     Gspread.unique head = true ->
     ~ In (lit "tag") head ->
     Gspread.load_entries_from_sheet w = (Raise (KeyError (lit "tag")), w)).
Proof.
  rewrite gs_load_unfold. unfold Gspread.get_all_records.
  split; [|split; [|split]].
  - intros H. unfold Gspread.get_all_values.
    now rewrite (trim_rows_blank H).
  - intros h rows -> Hb Hu. unfold Gspread.get_all_values.
    cbn [Gspread.trim_rows]. rewrite (trim_rows_blank Hb).
    destruct (Gspread.trim_row h) as [|c t] eqn:Et; [reflexivity|].
    cbn [map Gspread.width fold_right]. rewrite Nat.max_0_r, pad_full.
    now rewrite Hu.
  - intros h rows Hs Hu.
    assert (Hv : exists v,
               Gspread.trim_rows (sheet w) = Gspread.trim_row h :: v).
    { rewrite Hs. cbn [Gspread.trim_rows].
      destruct (Gspread.trim_row h) as [|c t] eqn:Et; [discriminate Hu|].
      now eexists. }
    destruct Hv as [v Hv]. unfold Gspread.get_all_values. rewrite Hv.
    cbn [map].
    destruct (Gspread.unique
                (Gspread.pad (Gspread.width (Gspread.trim_row h :: v))
                   (Gspread.trim_row h))) eqn:Ep; [|reflexivity].
    apply unique_app in Ep. congruence.
  - intros head row rows -> -> Hh.
    cbn [map Gspread.entries_of_records].
    unfold dict_index at 1.
    rewrite dict_get_fresh; [reflexivity|].
    unfold dict_of_pairs. rewrite keys_fold_set.
    intros [[]|Hin]. now apply keys_combine in Hin.
Qed.

(** X4. For every mapping with unique keys none of whose written cells
    reads as a number and whose last written row is not entirely empty,
    loading what was saved returns the same keys in the same order with the
    same notes, and saving the loaded mapping again writes the very same
    rows: reasons that do not survive as lists (a comma inside, a single
    empty reason) still serialize to the same cells. *)
Theorem X4_store_cycle (x : dict Entry) (w : World) :
  wf_dict x -> text_cells x -> tail_kept x ->
  let w1 := snd (save_entries_to_sheet x w) in
  exists d,
    Gspread.load_entries_from_sheet w1 = (Ok (as_loaded d), w1) /\
    keys d = keys x /\
    map (fun te => note (snd te)) d = map (fun te => note (snd te)) x /\
    sheet (snd (save_entries_to_sheet d w1)) = sheet w1.
Proof.
  intros Hwf Ht Hk w1. subst w1.
  exists (map (fun te => (fst te, reparse (snd te))) x).
  split; [|split; [|split]].
  - apply gs_load_saved; [now rewrite save_unfold|exact Hwf|exact Ht|exact Hk].
  - apply keys_reparse.
  - rewrite map_map. reflexivity.
  - rewrite !save_unfold. cbn [snd sheet]. now rewrite entry_row_reparse.
Qed.

End ReaderMore.

(* ================================================================== *)
(** * Further properties: the edit and delete handlers *)

Lemma save_handler_present (w : World) (tag : str) (rs : list str) (nt : str)
  (e : Entry) :
  dict_get tag (entries w) = Some e ->
  save_handler tag rs nt w =
  (Ok tt,
   add_ui (SuccessBox (tag ++ lit " を更新しました"))
     (snd (save_entries_to_sheet
             (dict_set tag (mkEntry rs nt) (entries w))
             (set_entries (dict_set tag (mkEntry rs nt) (entries w)) w)))).
Proof.
  intros Hv. unfold save_handler.
  unfold bind, get_world, lift, dict_index, modify, emit.
  rewrite Hv. cbn [entries set_entries].
  rewrite dict_get_set_same. cbn [reasons note entries set_entries].
  rewrite dict_set_set, !save_unfold. reflexivity.
Qed.

(** X5. The save button on an entry that is in the mapping returns
    normally: that entry gets the new reasons and note, no key is added,
    removed or moved, every other entry stays as it was, and the whole
    mapping is written to the worksheet by one clear and one update. *)
Theorem X5_edit_saves (w : World) (tag : str) (rs : list str) (nt : str)
  (e : Entry) :
  dict_get tag (entries w) = Some e ->
  let w' := snd (save_handler tag rs nt w) in
  fst (save_handler tag rs nt w) = Ok tt /\
  keys (entries w') = keys (entries w) /\
  dict_get tag (entries w') = Some (mkEntry rs nt) /\
  (forall k, k <> tag -> dict_get k (entries w') = dict_get k (entries w)) /\
  sheet w' = header_row :: map entry_row (entries w') /\
  sheet_calls w' = sheet_calls w ++ [Clear; Update (sheet w')] /\
  ui w' = ui w ++ [SuccessBox (tag ++ lit " を更新しました")].
Proof.
  intros Hv w'. subst w'. rewrite (save_handler_present _ _ rs nt Hv).
  rewrite save_unfold.
  cbn [fst snd add_ui set_entries entries sheet sheet_calls ui].
  split; [reflexivity|]. split.
  - apply keys_dict_set_present. eapply dict_get_some_in, Hv.
  - split; [apply dict_get_set_same|].
    split; [intros k Hk; now apply dict_get_set_other|].
    now repeat split.
Qed.

(* ================================================================== *)
(** * Further properties: normalization *)

Lemma rev_flat_map (A B : Type) (g : A -> list B) (s : list A) :
  rev (flat_map g s) = flat_map (fun c => rev (g c)) (rev s).
Proof.
  induction s as [|c s IH]; [reflexivity|].
  simpl. rewrite rev_app_distr, IH, flat_map_app. simpl.
  now rewrite app_nil_r.
Qed.

Lemma lstrip_spaces_app (a b : str) :
  forallb isspace a = true -> lstrip (a ++ b) = lstrip b.
Proof.
  induction a as [|c a IH]; simpl; [reflexivity|].
  intros H. apply andb_true_iff in H as [-> H]. now apply IH.
Qed.

(** Trimming commutes with a character-wise mapping that keeps whitespace
    whitespace and everything else non-whitespace. *)
Section SpaceKeeping.
Variable g : N -> list N.
Hypothesis g_ok :
  forall c, g c <> [] /\ forall d, In d (g c) -> isspace d = isspace c.

Lemma lstrip_flat_map (s : str) : lstrip (flat_map g s) = flat_map g (lstrip s).
Proof.
  induction s as [|c s IH]; [reflexivity|].
  destruct (g_ok c) as [Hne Hsp]. simpl.
  destruct (isspace c) eqn:Ec.
  - rewrite lstrip_spaces_app; [exact IH|].
    apply forallb_forall. intros d Hd. now rewrite (Hsp d Hd).
  - destruct (g c) as [|d ds] eqn:Eg; [contradiction|].
    simpl. rewrite (Hsp d) by now left. now rewrite Eg.
Qed.

End SpaceKeeping.

Lemma rstrip_flat_map (g : N -> list N) (s : str) :
  (forall c, g c <> [] /\ forall d, In d (g c) -> isspace d = isspace c) ->
  rstrip (flat_map g s) = flat_map g (rstrip s).
Proof.
  intros g_ok. unfold rstrip.
  rewrite rev_flat_map, lstrip_flat_map.
  - rewrite rev_flat_map. apply flat_map_ext. intros c. apply rev_involutive.
  - intros c. destruct (g_ok c) as [Hne Hsp]. split.
    + intros H. apply Hne. apply (f_equal (@rev N)) in H.
      now rewrite rev_involutive in H.
    + intros d Hd. apply Hsp. now apply in_rev.
Qed.

Lemma strip_idem (s : str) : strip (strip s) = strip s.
Proof. apply strip_fix; [apply strip_no_lead|apply strip_no_trail]. Qed.

Section NormalizeMore.
Context {E : Env}.

Lemma strip_upper (s : str) :
  upper_table_ok -> strip (upper s) = upper (strip s).
Proof.
  intros tables.
  assert (Hok : forall c, upper_cp c <> [] /\
                          forall d, In d (upper_cp c) -> isspace d = isspace c).
  { intros c. destruct (upper_cp_ok tables c) as (H1 & H2 & _). now split. }
  unfold strip, upper. now rewrite lstrip_flat_map, rstrip_flat_map.
Qed.

(** X16. Under the stated properties of the uppercase table, the result of
    [normalize_tag] is in canonical form: trimming it or uppercasing it
    changes nothing. *)
Theorem X16_normalized_is_canonical (x : str) :
  upper_table_ok ->
  strip (normalize_tag x) = normalize_tag x /\
  upper (normalize_tag x) = normalize_tag x.
Proof.
  intros tables.
  assert (Hl : no_lead (upper (strip x)))
    by (apply upper_no_lead; [exact tables|apply strip_no_lead]).
  assert (Ht : no_trail (upper (strip x)))
    by (apply upper_no_trail; [exact tables|apply strip_no_trail]).
  rewrite normalize_tag_unfold.
  destruct (startswith (upper (strip x)) [hash]).
  - split; [now apply strip_fix|now apply upper_idem].
  - split.
    + apply strip_fix; [reflexivity|now apply no_trail_cons].
    + rewrite upper_hash. f_equal. now apply upper_idem.
Qed.

(** X17. [normalize_tag] does not see surrounding whitespace; under the
    stated properties of the uppercase table it does not see case either;
    and the marker is optional: an input without leading whitespace whose
    trimmed uppercase form does not begin with the marker normalizes to the
    same identifier with and without a marker in front. *)
Theorem X17_normalize_insensitive :
  (forall x, normalize_tag (strip x) = normalize_tag x) /\
  (upper_table_ok -> forall x, normalize_tag (upper x) = normalize_tag x) /\
  (forall x,
     no_lead x ->
     startswith (upper (strip x)) (lit "#") = false ->
     normalize_tag (hash :: x) = normalize_tag x).
Proof.
  split; [|split].
  - intros x. rewrite !normalize_tag_unfold. now rewrite strip_idem.
  - intros tables x. rewrite !normalize_tag_unfold.
    now rewrite strip_upper, upper_idem.
  - intros x Hl Hs. rewrite lit_hash in Hs.
    rewrite !normalize_tag_unfold. rewrite Hs.
    unfold strip. rewrite (lstrip_fix (hash :: x)) by reflexivity.
    rewrite (lstrip_fix x) by assumption.
    rewrite rstrip_cons by reflexivity. rewrite upper_hash.
    replace (startswith (hash :: upper (rstrip x)) [hash]) with true; [reflexivity|].
    symmetry. apply startswith_hash. now eexists.
Qed.

End NormalizeMore.

(* ================================================================== *)
(** * Further properties: URL encoding *)

Ltac lia_div := zify; Z.to_euclidean_division_equations; lia.

Lemma always_safe_spec (b : N) :
  always_safe b = true <->
  ((65 <= b <= 90) \/ (97 <= b <= 122) \/ (48 <= b <= 57)
   \/ b = 95 \/ b = 46 \/ b = 45 \/ b = 126)%N.
Proof.
  unfold always_safe.
  rewrite !orb_true_iff, !andb_true_iff, !N.leb_le, !N.eqb_eq. tauto.
Qed.

Lemma upper_alnum_spec (c : N) :
  upper_alnum c = true <-> ((48 <= c <= 57) \/ (65 <= c <= 90))%N.
Proof.
  unfold upper_alnum.
  rewrite !orb_true_iff, !andb_true_iff, !N.leb_le. tauto.
Qed.

Lemma utf8_encode_cp_bytes (c : N) (bs : list N) :
  utf8_encode_cp c = Some bs -> Forall (fun b => (b < 256)%N) bs.
Proof.
  unfold utf8_encode_cp.
  destruct (N.ltb_spec c 128).
  { intros H0. replace bs with [c] by congruence.
    repeat (apply Forall_cons; [lia_div|]). apply Forall_nil. }
  destruct (N.ltb_spec c 2048).
  { intros H1. replace bs with [192 + c / 64; 128 + c mod 64]%N by congruence.
    repeat (apply Forall_cons; [lia_div|]). apply Forall_nil. }
  destruct (N.ltb_spec c 65536).
  - destruct ((55296 <=? c) && (c <=? 57343))%N; [discriminate|].
    intros H2.
    replace bs with [224 + c / 4096; 128 + (c / 64) mod 64; 128 + c mod 64]%N
      by congruence.
    repeat (apply Forall_cons; [lia_div|]). apply Forall_nil.
  - destruct (N.ltb_spec c 1114112); [|discriminate].
    intros H3.
    replace bs with [240 + c / 262144; 128 + (c / 4096) mod 64;
                     128 + (c / 64) mod 64; 128 + c mod 64]%N by congruence.
    repeat (apply Forall_cons; [lia_div|]). apply Forall_nil.
Qed.

Lemma utf8_encode_bytes (s : str) :
  forall bs, utf8_encode s = Some bs -> Forall (fun b => (b < 256)%N) bs.
Proof.
  induction s as [|c s IH]; simpl; intros bs H.
  - injection H as <-. constructor.
  - destruct (utf8_encode_cp c) as [b|] eqn:Ec; [|discriminate].
    destruct (utf8_encode s) as [bs'|]; [|discriminate].
    injection H as <-. apply Forall_app. split.
    + now apply (utf8_encode_cp_bytes c).
    + now apply IH.
Qed.

Lemma unencodable_spec (c : N) :
  unencodable c = true <-> ((55296 <= c <= 57343) \/ 1114112 <= c)%N.
Proof.
  unfold unencodable.
  rewrite orb_true_iff, andb_true_iff, !N.leb_le. tauto.
Qed.

Lemma utf8_encode_cp_none (c : N) :
  utf8_encode_cp c = None <-> unencodable c = true.
Proof.
  rewrite unencodable_spec. unfold utf8_encode_cp.
  destruct (N.ltb_spec c 128) as [L1|L1]; [split; [discriminate|lia]|].
  destruct (N.ltb_spec c 2048) as [L2|L2]; [split; [discriminate|lia]|].
  destruct (N.ltb_spec c 65536) as [L3|L3].
  - destruct ((55296 <=? c) && (c <=? 57343))%N eqn:Es.
    + apply andb_true_iff in Es as [S1 S2]. apply N.leb_le in S1, S2.
      split; [intros _; lia|reflexivity].
    + split; [discriminate|]. intros Hu.
      apply andb_false_iff in Es as [S|S]; apply N.leb_gt in S; lia.
  - destruct (N.ltb_spec c 1114112) as [L4|L4].
    + split; [discriminate|lia].
    + split; [intros _; lia|reflexivity].
Qed.

Lemma utf8_encode_none (s : str) :
  utf8_encode s = None <-> existsb unencodable s = true.
Proof.
  induction s as [|c s IH]; simpl; [split; discriminate|].
  rewrite orb_true_iff, <- utf8_encode_cp_none, <- IH.
  destruct (utf8_encode_cp c), (utf8_encode s); split; intros H;
    try discriminate; try tauto; destruct H; discriminate.
Qed.

Lemma hex_digit_safe (d : N) : (d < 16)%N -> always_safe (hex_digit d) = true.
Proof.
  intros H. apply always_safe_spec. unfold hex_digit.
  destruct (N.ltb_spec d 10); lia.
Qed.

Lemma quote_byte_url (b : N) :
  (b < 256)%N -> forallb url_char (quote_byte b) = true.
Proof.
  intros H. unfold quote_byte, url_char.
  destruct (always_safe b) eqn:Es; simpl.
  - now rewrite Es.
  - rewrite !hex_digit_safe by lia_div. reflexivity.
Qed.

Lemma forallb_flat_map (A B : Type) (p : B -> bool) (g : A -> list B)
  (q : A -> Prop) (s : list A) :
  (forall a, q a -> forallb p (g a) = true) ->
  Forall q s -> forallb p (flat_map g s) = true.
Proof.
  intros Hg Hs. induction Hs as [|a s Ha Hs IH]; [reflexivity|].
  simpl. rewrite forallb_app, IH, Hg by assumption. reflexivity.
Qed.

Lemma Forall_lstrip (P : N -> Prop) (s : str) : Forall P s -> Forall P (lstrip s).
Proof.
  induction 1 as [|c s Hc Hs IH]; simpl; [constructor|].
  destruct (isspace c); [assumption|now constructor].
Qed.

Lemma Forall_strip (P : N -> Prop) (s : str) : Forall P s -> Forall P (strip s).
Proof.
  intros H. unfold strip, rstrip.
  apply Forall_rev, Forall_lstrip, Forall_rev, Forall_lstrip, H.
Qed.

Lemma Forall_nonspace_strip (s : str) :
  Forall (fun c => isspace c = false) s -> strip s = s.
Proof.
  intros H. apply strip_fix.
  - destruct H; [exact I|assumption].
  - unfold no_trail. apply Forall_rev in H.
    destruct H; [exact I|assumption].
Qed.

Lemma ascii_encodable (s : str) :
  Forall (fun c => (c < 128)%N) s -> existsb unencodable s = false.
Proof.
  induction 1 as [|c s Hc Hs IH]; [reflexivity|].
  simpl. rewrite IH, orb_false_r.
  destruct (unencodable c) eqn:Eu; [|reflexivity].
  apply unencodable_spec in Eu. lia.
Qed.

Section EncodeMore.
Context {E : Env}.

Lemma encode_tag_quote (raw : str) : encode_tag raw = quote (normalize_tag raw).
Proof. reflexivity. Qed.

(** X13. Whatever [encode_tag] returns consists of URL-safe characters and
    percent signs only, and begins with the escaped marker. *)
Theorem X13_encode_tag_url_safe (raw enc : str) :
  encode_tag raw = Ok enc ->
  forallb url_char enc = true /\ exists rest, enc = lit "%23" ++ rest.
Proof.
  rewrite encode_tag_quote. unfold quote.
  destruct (normalize_tag_marker raw) as [r ->].
  destruct (utf8_encode (hash :: r)) as [bs|] eqn:Eb; [|discriminate].
  intros [= <-]. split.
  - apply forallb_flat_map with (q := fun b => (b < 256)%N).
    + apply quote_byte_url.
    + now apply (utf8_encode_bytes (hash :: r)).
  - simpl in Eb. destruct (utf8_encode r) as [bs'|]; [|discriminate].
    injection Eb as <-. now eexists.
Qed.

Lemma upper_ascii (s : str) :
  Forall (fun c => (c < 128)%N) s -> Forall (fun c => (c < 128)%N) (upper s).
Proof.
  induction 1 as [|c s Hc Hs IH]; [constructor|].
  change (upper (c :: s)) with (upper_cp c ++ upper s).
  rewrite upper_cp_ascii by assumption.
  constructor; [now apply ascii_upper_small|assumption].
Qed.

Lemma normalize_tag_ascii (raw : str) :
  Forall (fun c => (c < 128)%N) raw ->
  Forall (fun c => (c < 128)%N) (normalize_tag raw).
Proof.
  intros H. rewrite normalize_tag_unfold.
  assert (Hu : Forall (fun c => (c < 128)%N) (upper (strip raw)))
    by now apply upper_ascii, Forall_strip.
  destruct (startswith (upper (strip raw)) [hash]); [assumption|].
  constructor; [reflexivity|assumption].
Qed.

(** X14. [encode_tag] raises exactly when the normalized tag holds a code
    point that UTF-8 cannot encode, and then it raises
    [UnicodeEncodeError]; in particular it returns for every ASCII
    input. *)
Theorem X14_encode_tag_raises (raw : str) :
  (existsb unencodable (normalize_tag raw) = true ->
   encode_tag raw = Raise UnicodeEncodeError) /\
  (existsb unencodable (normalize_tag raw) = false ->
   exists enc, encode_tag raw = Ok enc) /\
  (Forall (fun c => (c < 128)%N) raw -> exists enc, encode_tag raw = Ok enc).
Proof.
  rewrite encode_tag_quote. unfold quote.
  assert (Hyes : existsb unencodable (normalize_tag raw) = false ->
                 exists enc,
                   match utf8_encode (normalize_tag raw) with
                   | Some bs => Ok (flat_map quote_byte bs)
                   | None => Raise UnicodeEncodeError
                   end = Ok enc).
  { intros H. destruct (utf8_encode (normalize_tag raw)) eqn:Eb; [now eexists|].
    apply utf8_encode_none in Eb. congruence. }
  split; [|split; [exact Hyes|]].
  - intros H. apply utf8_encode_none in H. now rewrite H.
  - intros H. apply Hyes. now apply ascii_encodable, normalize_tag_ascii.
Qed.

Lemma alnum_facts (c : N) :
  upper_alnum c = true ->
  isspace c = false /\ upper_cp c = [c] /\ utf8_encode_cp c = Some [c] /\
  quote_byte c = [c] /\ c <> hash.
Proof.
  intros H. apply upper_alnum_spec in H.
  assert (Hs : always_safe c = true) by (apply always_safe_spec; lia).
  repeat split.
  - apply isspace_printable. lia.
  - rewrite upper_cp_ascii by lia. f_equal.
    destruct (ascii_upper_range c) as [Hu|[Hr _]]; [exact Hu|lia].
  - unfold utf8_encode_cp.
    replace (c <? 128)%N with true by (symmetry; apply N.ltb_lt; lia).
    reflexivity.
  - unfold quote_byte. now rewrite Hs.
  - unfold hash. lia.
Qed.

Lemma alnum_tag_facts (tag : str) :
  forallb upper_alnum tag = true ->
  Forall (fun c => isspace c = false) tag /\ upper tag = tag /\
  utf8_encode tag = Some tag /\ flat_map quote_byte tag = tag /\
  startswith tag [hash] = false.
Proof.
  induction tag as [|c tag IH]; intros H.
  - repeat split. constructor.
  - simpl in H. apply andb_true_iff in H as [Hc Ht].
    destruct (IH Ht) as (I1 & I2 & I3 & I4 & _).
    destruct (alnum_facts c Hc) as (A1 & A2 & A3 & A4 & A5).
    split; [now constructor|]. split.
    { change (upper (c :: tag)) with (upper_cp c ++ upper tag).
      now rewrite A2, I2. }
    split; [simpl; now rewrite A3, I3|].
    split; [simpl; now rewrite A4, I4|].
    destruct (startswith (c :: tag) [hash]) eqn:Es; [|reflexivity].
    apply startswith_hash in Es as [r Hr]. injection Hr as -> _.
    now contradiction A5.
Qed.

(** X15. For a tag made of digits and uppercase ASCII letters, as the one
    in test_api.py, [encode_tag] returns the escaped marker followed by the
    tag unchanged, so the request [fetch_player] sends goes to exactly the
    URL that the test script builds by hand. *)
Theorem X15_test_script_url (tag : str) :
  forallb upper_alnum tag = true ->
  encode_tag tag = Ok (lit "%23" ++ tag) /\
  forall now w,
    snd (fetch_player_body now tag w) = log_request now (test_api_url tag) w.
Proof.
  intros H. destruct (alnum_tag_facts tag H) as (H1 & H2 & H3 & H4 & H5).
  assert (He : encode_tag tag = Ok (lit "%23" ++ tag)).
  { rewrite encode_tag_quote, normalize_tag_unfold.
    rewrite Forall_nonspace_strip, H2, H5 by assumption.
    unfold quote. simpl. rewrite H3. simpl. now rewrite H4. }
  split; [exact He|].
  intros now w. rewrite body_unfold. cbn [snd]. unfold sent. rewrite He.
  unfold test_api_url. reflexivity.
Qed.

End EncodeMore.

(* ================================================================== *)
(** * Further properties: the cached lookup *)

Section LookupMore.
Context {E : Env}.

Lemma cache_lookup_in (now : Z) (tag : str) (v : info) c :
  cache_lookup now tag c = Some v ->
  exists t0, (now < t0 + ttl)%Z /\ In (tag, (t0, v)) c.
Proof.
  induction c as [|[k [t0 v0]] c IH]; simpl; [discriminate|].
  destruct (str_eqb tag k) eqn:Ek.
  - apply str_eqb_eq in Ek. subst k.
    destruct (now <? t0 + ttl)%Z eqn:Et; [|discriminate].
    intros [= ->]. exists t0. split; [now apply Z.ltb_lt|now left].
  - intros H. destruct (IH H) as (t1 & Ht & Hin).
    exists t1. split; [assumption|now right].
Qed.

Lemma body_result_ok_encoded (now : Z) (tag : str) (v : info) :
  body_result now tag = Ok v -> exists enc, encode_tag tag = Ok enc.
Proof.
  unfold body_result, fetch_player_body, bind, lift.
  destruct (encode_tag tag); [now eexists|discriminate].
Qed.

(** X10. The cache never invents a result: if every stored result is what
    the body of [fetch_player] returned for its argument when it was
    stored, this stays so after any lookup, and every value a lookup at
    time [now] returns is what the body returned for that same argument at
    some time [t0] with [now < t0 + 600]. *)
Theorem X10_cache_sound (now : Z) (tag : str) (w : World) :
  cache_sound w ->
  cache_sound (snd (fetch_player now tag w)) /\
  forall v, fst (fetch_player now tag w) = Ok v ->
    exists t0, (now < t0 + 600)%Z /\ body_result t0 tag = Ok v.
Proof.
  unfold cache_sound. intros Hs. rewrite fetch_unfold.
  destruct (cache_lookup now tag (cache w)) as [v0|] eqn:Ec.
  - split; [exact Hs|]. cbn [fst]. intros v [= <-].
    destruct (cache_lookup_in _ _ _ Ec) as (t0 & Ht & Hin).
    exists t0. split; [exact Ht|].
    rewrite Forall_forall in Hs. exact (Hs _ Hin).
  - destruct (body_result now tag) as [v1|e] eqn:Eb; cbn [fst snd].
    + split.
      * cbn [cache set_cache]. constructor; [exact Eb|exact Hs].
      * intros v [= <-]. exists now. split; [lia|exact Eb].
    + split; [now rewrite cache_sent|discriminate].
Qed.

(** X11. A lookup never touches the mapping, the worksheet, the calls made
    to it or the rendered elements.  It sends at most one request, to the
    players URL of its encoded tag; it sends none and changes nothing when
    the cache holds a fresh result; and a lookup that raises leaves the
    cache as it was. *)
Theorem X11_fetch_effects (now : Z) (tag : str) (w : World) :
  let w' := snd (fetch_player now tag w) in
  entries w' = entries w /\ sheet w' = sheet w /\
  sheet_calls w' = sheet_calls w /\ ui w' = ui w /\
  (requests w' = requests w \/
   exists enc,
     encode_tag tag = Ok enc /\
     requests w' =
       requests w ++ [(now, lit "https://api.brawlstars.com/v1/players/" ++ enc)]) /\
  (forall v, cache_lookup now tag (cache w) = Some v ->
             fetch_player now tag w = (Ok v, w)) /\
  (forall e, fst (fetch_player now tag w) = Raise e -> cache w' = cache w).
Proof.
  intros w'. subst w'.
  destruct (fetch_frame now tag w) as (H1 & H2 & H3 & H4).
  repeat (split; [assumption|]).
  rewrite fetch_unfold.
  assert (Hsent : requests (sent now tag w) = requests w \/
            exists enc,
              encode_tag tag = Ok enc /\
              requests (sent now tag w) =
                requests w ++ [(now, lit "https://api.brawlstars.com/v1/players/" ++ enc)]).
  { unfold sent. destruct (encode_tag tag) as [enc|]; [right; now exists enc|now left]. }
  destruct (cache_lookup now tag (cache w)) as [v0|].
  - split; [now left|]. split; [now intros v [= <-]|discriminate].
  - destruct (body_result now tag); cbn [fst snd set_cache requests cache].
    + split; [exact Hsent|]. split; discriminate.
    + split; [exact Hsent|]. split; [discriminate|].
      intros _ _. apply cache_sent.
Qed.

(** X12. Under the stated properties of the uppercase table, a raw tag and
    its normalized form are encoded to the same URL; yet the cache keeps
    them apart: when the two differ and neither is cached, a lookup of the
    raw tag that returns, followed by a lookup of the normalized tag, sends
    two requests to that one URL. *)
Theorem X12_raw_and_normalized_tag (raw : str) :
  upper_table_ok ->
  encode_tag (normalize_tag raw) = encode_tag raw /\
  forall t1 t2 w v,
    normalize_tag raw <> raw ->
    cache_lookup t1 raw (cache w) = None ->
    cache_lookup t2 (normalize_tag raw) (cache w) = None ->
    fst (fetch_player t1 raw w) = Ok v ->
    exists url,
      requests (snd (fetch_player t2 (normalize_tag raw)
                       (snd (fetch_player t1 raw w)))) =
      requests w ++ [(t1, url); (t2, url)].
Proof.
  intros tables.
  assert (Hsame : encode_tag (normalize_tag raw) = encode_tag raw).
  { rewrite !encode_tag_quote. now rewrite normalize_tag_idem. }
  split; [exact Hsame|].
  intros t1 t2 w v Hne Hc1 Hc2 H1.
  rewrite (fetch_unfold t1 raw w) in *. rewrite Hc1 in *.
  destruct (body_result t1 raw) as [v1|e] eqn:Eb; [|discriminate].
  destruct (body_result_ok_encoded _ _ Eb) as [enc He].
  exists (lit "https://api.brawlstars.com/v1/players/" ++ enc).
  cbn [snd]. rewrite fetch_unfold. cbn [cache set_cache cache_lookup].
  rewrite (str_eqb_neq Hne), Hc2.
  assert (Hreq : requests (sent t2 (normalize_tag raw)
                    (set_cache ((raw, (t1, v1)) :: cache w) (sent t1 raw w))) =
                 requests w ++
                 [(t1, lit "https://api.brawlstars.com/v1/players/" ++ enc);
                  (t2, lit "https://api.brawlstars.com/v1/players/" ++ enc)]).
  { unfold sent. rewrite Hsame, He. cbn [requests log_request set_cache].
    now rewrite <- app_assoc. }
  destruct (body_result t2 (normalize_tag raw)); cbn [snd set_cache requests];
    exact Hreq.
Qed.

End LookupMore.

(* ================================================================== *)
(** * Further properties: the create page and the key invariants *)

Section CreateMore.
Context {E : Env}.


Lemma create_mode_idle (now : Z) (inp : CreateInput) (w : World) :
  in_pwd inp = PASSWORD ->
  in_submit inp = None ->
  create_mode now inp w = (Ok tt, render add_page w).
Proof.
  intros Hp Hs. unfold create_mode. rewrite Hp, str_eqb_refl, Hs. reflexivity.
Qed.

Lemma create_mode_preview (now : Z) (inp : CreateInput) (w : World) :
  in_pwd inp = PASSWORD ->
  in_submit inp = Some SubmitLookup ->
  create_mode now inp w =
  match lookup_handler now (strip (in_tag inp)) (render (firstn 5 add_page) w) with
  | (Ok _, w1) => (Ok tt, render (skipn 5 add_page) w1)
  | (Raise e, w1) => (Raise e, w1)
  end.
Proof.
  intros Hp Hs. unfold create_mode. rewrite Hp, str_eqb_refl, Hs.
  cbn [negb]. unfold bind, emit, modify at 1 2 3 4 5.
  cbn [firstn skipn add_page render fold_left].
  destruct (lookup_handler now (strip (in_tag inp)) _) as [[[]|e] w1];
    reflexivity.
Qed.

Lemma create_mode_preview_run (now : Z) (inp : CreateInput) (w : World) :
  in_pwd inp = PASSWORD ->
  in_submit inp = Some SubmitLookup ->
  exists w1,
    entries w1 = entries w /\ sheet w1 = sheet w /\
    sheet_calls w1 = sheet_calls w /\
    create_mode now inp w =
    match lookup now (strip (in_tag inp)) w with
    | Ok [] =>
        (Ok tt,
         render (skipn 5 add_page)
           (add_ui (ErrorBox (lit "タグが見つかりません")) w1))
    | Ok (kv :: i) =>
        (Ok tt,
         render (skipn 5 add_page)
           (add_ui (SuccessBox
                      (py_str (dict_get (lit "tag") (kv :: i)) ++ lit " → `"
                       ++ py_str (dict_get (lit "name") (kv :: i))
                       ++ lit "` さん")) w1))
    | Raise e => (Raise e, w1)
    end.
Proof.
  intros Hp Hs. rewrite create_mode_preview by assumption.
  destruct (fetch_on_page now (strip (in_tag inp)) (firstn 5 add_page) w)
    as (w1 & Hf & H1 & H2 & H3 & _).
  exists w1. repeat (split; [assumption|]).
  unfold lookup_handler, bind. rewrite Hf.
  destruct (lookup now (strip (in_tag inp)) w) as [[|kv i]|e]; reflexivity.
Qed.

(** X8. With the matching password, a run of the create page without a
    pressed button only renders the page: nothing is looked up, stored or
    written.  A run with the name-preview button looks up the tag as typed
    and trimmed, never touches the mapping or the worksheet whatever the
    lookup does, shows the not-found error when the lookup is empty, and
    raises what the lookup raises. *)
Theorem X8_preview_read_only (now : Z) (inp : CreateInput) (w : World) :
  in_pwd inp = PASSWORD ->
  (in_submit inp = None ->
   create_mode now inp w = (Ok tt, render add_page w)) /\
  (in_submit inp = Some SubmitLookup ->
   let w' := snd (create_mode now inp w) in
   entries w' = entries w /\ sheet w' = sheet w /\
   sheet_calls w' = sheet_calls w /\
   (lookup now (strip (in_tag inp)) w = Ok [] ->
    fst (create_mode now inp w) = Ok tt /\
    In (ErrorBox (lit "タグが見つかりません")) (ui w')) /\
   (forall e, lookup now (strip (in_tag inp)) w = Raise e ->
              fst (create_mode now inp w) = Raise e)).
Proof.
  intros Hp. split; [now apply create_mode_idle|].
  intros Hs w'. subst w'.
  destruct (@create_mode_preview_run now inp w Hp Hs)
    as (w1 & H1 & H2 & H3 & Hrun).
  rewrite Hrun.
  destruct (lookup now (strip (in_tag inp)) w) as [[|kv i]|e]; cbn [fst snd].
  - destruct (render_fields (skipn 5 add_page)
                (add_ui (ErrorBox (lit "タグが見つかりません")) w1))
      as (R1 & R2 & R3 & _ & _ & R6).
    rewrite R1, R2, R3, R6. cbn [add_ui entries sheet sheet_calls ui].
    split; [assumption|]. split; [assumption|]. split; [assumption|].
    split; [|intros e He; discriminate He].
    intros _. split; [reflexivity|].
    apply in_or_app. left. apply in_or_app. right. now left.
  - destruct (render_fields (skipn 5 add_page)
                (add_ui (SuccessBox
                           (py_str (dict_get (lit "tag") (kv :: i)) ++ lit " → `"
                            ++ py_str (dict_get (lit "name") (kv :: i))
                            ++ lit "` さん")) w1))
      as (R1 & R2 & R3 & _ & _ & _).
    rewrite R1, R2, R3. cbn [add_ui entries sheet sheet_calls].
    split; [assumption|]. split; [assumption|]. split; [assumption|].
    split; [intros He; discriminate He|intros e He; discriminate He].
  - split; [assumption|]. split; [assumption|]. split; [assumption|].
    split; [intros He; discriminate He|]. now intros e0 [= <-].
Qed.

Lemma delete_handler_present (p : delete_page) (w : World) (tag : str)
  (e : Entry) :
  dict_get tag (entries w) = Some e ->
  entries (snd (delete_handler p tag w)) = dict_remove tag (entries w).
Proof.
  intros Hv.
  destruct p; unfold delete_handler, browse_delete, search_delete,
    bind, get_world, lift, dict_pop, modify, emit;
    rewrite Hv, !save_unfold; reflexivity.
Qed.

Lemma Forall_keys_set (P : str -> Prop) (k : str) (v : Entry) (d : dict Entry) :
  P k -> Forall P (keys d) -> Forall P (keys (dict_set k v d)).
Proof.
  intros Hk Hd. apply Forall_forall. intros x Hx.
  apply keys_dict_set in Hx as [->|Hx]; [assumption|].
  rewrite Forall_forall in Hd. now apply Hd.
Qed.

(** X9. The three handlers that change the mapping keep its invariants:
    if no key occurs twice and every key begins with the marker, the same
    holds after the add handler, after the save button and after either
    delete button, whatever their inputs and whether they return or
    raise. *)
Theorem X9_handlers_keep_keys (w : World) :
  wf_dict (entries w) ->
  Forall marked (keys (entries w)) ->
  (forall now raw rs nt,
     wf_dict (entries (snd (add_handler now raw rs nt w))) /\
     Forall marked (keys (entries (snd (add_handler now raw rs nt w))))) /\
  (forall tag rs nt,
     wf_dict (entries (snd (save_handler tag rs nt w))) /\
     Forall marked (keys (entries (snd (save_handler tag rs nt w))))) /\
  (forall p tag,
     wf_dict (entries (snd (delete_handler p tag w))) /\
     Forall marked (keys (entries (snd (delete_handler p tag w))))).
Proof.
  intros Hwf Hm. split; [|split].
  - intros now raw rs nt. rewrite add_handler_unfold.
    destruct (fetch_frame now (normalize_tag raw) w) as (H1 & _).
    destruct (fetch_player now (normalize_tag raw) w) as [[i|e] w1];
      cbn [snd] in *; [|now rewrite H1].
    destruct rs as [|r rs]; [cbn [snd add_ui entries]; now rewrite H1|].
    destruct i as [|kv i]; [cbn [snd add_ui entries]; now rewrite H1|].
    rewrite save_unfold. cbn [snd add_ui set_entries entries]. rewrite H1.
    split; [now apply dict_set_wf|].
    apply Forall_keys_set; [|assumption].
    destruct (normalize_tag_marker raw) as [r0 Hr]. unfold marked.
    rewrite Hr, lit_hash. apply startswith_hash. now eexists.
  - intros tag rs nt.
    destruct (dict_get tag (entries w)) as [e|] eqn:Hv.
    + rewrite (save_handler_present _ _ rs nt Hv), save_unfold.
      cbn [snd add_ui set_entries entries].
      split; [now apply dict_set_wf|].
      rewrite keys_dict_set_present; [assumption|].
      eapply dict_get_some_in, Hv.
    + unfold save_handler, bind, get_world, lift, dict_index.
      rewrite Hv. now split.
  - intros p tag.
    destruct (dict_get tag (entries w)) as [e|] eqn:Hv.
    + rewrite (delete_handler_present p _ _ Hv).
      split; [now apply dict_remove_wf|].
      apply Forall_forall. intros k Hk. apply keys_dict_remove in Hk.
      rewrite Forall_forall in Hm. now apply Hm.
    + destruct p; unfold delete_handler, browse_delete, search_delete,
        bind, get_world, lift, dict_pop; rewrite Hv; now split.
Qed.

End CreateMore.

(* ================================================================== *)
(** * Further properties: the list page and the search *)

Lemma contains_nil (s : str) : contains s [] = true.
Proof. destruct s as [|c s]; simpl; [reflexivity|]. now destruct s. Qed.

Lemma filter_all (A : Type) (f : A -> bool) (l : list A) :
  (forall a, f a = true) -> filter f l = l.
Proof.
  intros H. induction l as [|a l IH]; simpl; [reflexivity|].
  now rewrite H, IH.
Qed.

Section PagesMore.
Context {E : Env}.

Lemma cache_fresh_after (now : Z) (tag : str) (w : World) (v : info) :
  fst (fetch_player now tag w) = Ok v ->
  cache_lookup now tag (cache (snd (fetch_player now tag w))) = Some v.
Proof.
  rewrite fetch_unfold.
  destruct (cache_lookup now tag (cache w)) as [v0|] eqn:Ec.
  - cbn [fst snd]. now intros [= <-].
  - destruct (body_result now tag) as [v1|e]; [|discriminate].
    cbn [fst snd cache set_cache]. intros [= <-].
    rewrite cache_lookup_head.
    replace (now <? now + ttl)%Z with true
      by (symmetry; apply Z.ltb_lt; unfold ttl; lia).
    reflexivity.
Qed.

Lemma cache_fresh_kept (now : Z) (k tag : str) (w : World) (v : info) :
  cache_lookup now tag (cache w) = Some v ->
  cache_lookup now tag (cache (snd (fetch_player now k w))) = Some v.
Proof.
  intros Hc. rewrite fetch_unfold.
  destruct (cache_lookup now k (cache w)) as [v0|] eqn:Ek; [exact Hc|].
  destruct (body_result now k) as [v1|e]; cbn [snd cache set_cache].
  - simpl. destruct (str_eqb tag k) eqn:Et; [|exact Hc].
    apply str_eqb_eq in Et. subst k. congruence.
  - now rewrite cache_sent.
Qed.

Lemma requests_after_fetch (now : Z) (tag : str) (w : World) :
  List.length (requests (snd (fetch_player now tag w))) <=
  S (List.length (requests w)).
Proof.
  rewrite fetch_unfold.
  destruct (cache_lookup now tag (cache w)); [cbn [snd]; lia|].
  destruct (body_result now tag); cbn [snd set_cache requests];
    destruct (requests_sent now tag w) as [->|[url ->]];
    rewrite ?length_app; simpl; lia.
Qed.

Lemma browse_rows_spec (now : Z) (w0 : World) (items : list (str * Entry)) :
  forall w,
    (forall t, lookup now t w = lookup now t w0) ->
    (forall te, In te items -> exists i, lookup now (fst te) w0 = Ok i) ->
    exists w',
      browse_rows now items w = (Ok (map (browse_row_of now w0) items), w') /\
      (forall t, lookup now t w' = lookup now t w0) /\
      (forall t v, cache_lookup now t (cache w) = Some v ->
                   cache_lookup now t (cache w') = Some v) /\
      (forall te, In te items ->
                  exists i, cache_lookup now (fst te) (cache w') = Some i) /\
      entries w' = entries w /\ sheet w' = sheet w /\
      sheet_calls w' = sheet_calls w /\ ui w' = ui w /\
      List.length (requests w') <= List.length (requests w) + List.length items.
Proof.
  induction items as [|[tag e] rest IH]; intros w Hinv Hall.
  - exists w. simpl. repeat split; try tauto; try assumption; lia.
  - destruct (Hall (tag, e) (or_introl eq_refl)) as [i Hi]. cbn [fst] in Hi.
    pose proof (lookup_after_fetch now tag) as Hstep.
    pose proof (fetch_frame now tag w) as (F1 & F2 & F3 & F4).
    pose proof (requests_after_fetch now tag w) as Hreq.
    pose proof (@cache_fresh_after now tag w) as Hfresh.
    pose proof (fun t v => @cache_fresh_kept now tag t w v) as Hkept.
    cbn [browse_rows]. unfold bind at 1.
    assert (Hfst : fst (fetch_player now tag w) = Ok i)
      by (fold (lookup now tag w); now rewrite Hinv).
    destruct (fetch_player now tag w) as [r w1] eqn:Ef.
    cbn [fst snd] in *. subst r.
    destruct (IH w1) as (w' & Hrun & I1 & I2 & I3 & I4 & I5 & I6 & I7 & I8).
    { intros t. specialize (Hstep t w). rewrite Ef in Hstep. cbn [snd] in Hstep.
      now rewrite Hstep. }
    { intros te Hte. apply Hall. now right. }
    exists w'. unfold bind. rewrite Hrun. unfold ret.
    split.
    { cbn [map]. f_equal. f_equal.
      unfold browse_row_of. cbn [fst]. rewrite Hi. reflexivity. }
    split; [exact I1|].
    split; [intros t v Hc; apply I2; now apply Hkept|].
    split.
    { intros te [<-|Hte]; [|now apply I3].
      exists i. apply I2. now apply Hfresh. }
    rewrite I4, I5, I6, I7.
    repeat (split; [assumption|]). simpl. lia.
Qed.

(** X18. When every entry's lookup returns, the table of the list page has
    one row per entry, in mapping order and numbered from 0, holding the
    tag, the name field of the lookup (the text 取得失敗 when the lookup has
    no name, as for a player that was not found) and the reasons joined by
    comma and space.  Building it sends at most one request per entry and
    leaves mapping and worksheet alone, and afterwards a second lookup of
    any entry at the same time is answered from the cache without a
    request. *)
Theorem X18_browse_table (now : Z) (w : World) :
  (forall te, In te (entries w) -> exists i, lookup now (fst te) w = Ok i) ->
  exists w',
    browse_table now w =
    (Ok (combine (seq 0 (List.length (entries w)))
           (map (browse_row_of now w) (entries w))), w') /\
    (forall te, lookup now (fst te) w = Ok [] ->
       browse_row_of now w te =
       (fst te, JStr (lit "取得失敗"), join (lit ", ") (reasons (snd te)))) /\
    entries w' = entries w /\ sheet w' = sheet w /\
    sheet_calls w' = sheet_calls w /\
    List.length (requests w') <=
      List.length (requests w) + List.length (entries w) /\
    (forall te, In te (entries w) ->
       fetch_player now (fst te) w' = (lookup now (fst te) w, w')).
Proof.
  intros Hall.
  destruct (@browse_rows_spec now w (entries w) w (fun _ => eq_refl) Hall)
    as (w' & Hrun & I1 & _ & I3 & I4 & I5 & I6 & _ & I8).
  exists w'. split.
  { unfold browse_table, bind, get_world. rewrite Hrun. unfold ret.
    now rewrite length_map. }
  split.
  { intros te Hte. unfold browse_row_of. now rewrite Hte. }
  repeat (split; [assumption|]).
  intros te Hte. destruct (I3 te Hte) as [i Hi].
  rewrite fetch_unfold, Hi. f_equal.
  rewrite <- I1, lookup_unfold. now rewrite Hi.
Qed.

(** X19. A query that is empty or all whitespace matches every entry: when
    every lookup returns with a text name, the search returns all entries,
    in mapping order. *)
Theorem X19_blank_query_lists_all (now : Z) (query : str) (w : World) :
  forallb isspace query = true ->
  (forall te, In te (entries w) ->
     exists i s, lookup now (fst te) w = Ok i /\ name_field i = JStr s) ->
  exists w',
    search_hits now query w = (Ok (map (enriched now w) (entries w)), w').
Proof.
  intros Hq Hall. unfold search_hits, bind, get_world.
  rewrite strip_all_space by assumption.
  destruct (@search_loop_spec E now (lower []) w (entries w) [] w
              (fun _ => eq_refl) Hall) as [w' Hw'].
  exists w'. rewrite Hw'. cbn [app]. rewrite filter_all; [reflexivity|].
  intros te. change (lower []) with (@nil N). now rewrite contains_nil.
Qed.

Lemma search_loop_lookup (now : Z) (q : str) (items : list (str * Entry)) :
  forall hits w t,
    lookup now t (snd (search_loop now q items hits w)) = lookup now t w.
Proof.
  induction items as [|[tag e] rest IH]; intros hits w t; [reflexivity|].
  cbn [search_loop]. unfold bind at 1.
  pose proof (lookup_after_fetch now tag t w) as Hstep.
  destruct (fetch_player now tag w) as [[i|ex] w1]; cbn [snd] in *;
    [|exact Hstep].
  unfold bind at 1, matches.
  destruct (contains (lower tag) q).
  - unfold ret. rewrite IH. exact Hstep.
  - destruct (match dict_get (lit "name") i with
              | Some v => v
              | None => JStr (lit "")
              end); unfold raise, ret; cbn [snd]; try exact Hstep.
    rewrite IH. exact Hstep.
Qed.

Lemma search_loop_app (now : Z) (q : str) (a b : list (str * Entry)) :
  forall hits w,
    search_loop now q (a ++ b) hits w =
    match search_loop now q a hits w with
    | (Ok h, w') => search_loop now q b h w'
    | (Raise ex, w') => (Raise ex, w')
    end.
Proof.
  induction a as [|[tag e] a IH]; intros hits w; [reflexivity|].
  cbn [app search_loop]. unfold bind.
  destruct (fetch_player now tag w) as [[i|ex] w1]; [|reflexivity].
  destruct (matches q tag _ w1) as [[b0|ex] w2]; [|reflexivity].
  apply IH.
Qed.

(** X20. The search looks every entry up before it matches it, in mapping
    order: when the lookups of the entries before some entry return with
    text names and that entry's lookup raises, the search raises the same
    exception, whatever the query; and when that entry's lookup returns a
    name that is not text while the query does not occur in its tag, the
    search raises [AttributeError]. *)
Theorem X20_search_errors (now : Z) (query : str) (w : World)
  (pre post : list (str * Entry)) (tag : str) (e : Entry) :
  entries w = pre ++ (tag, e) :: post ->
  (forall te, In te pre ->
     exists i s, lookup now (fst te) w = Ok i /\ name_field i = JStr s) ->
  (forall ex, lookup now tag w = Raise ex ->
     fst (search_hits now query w) = Raise ex) /\
  (forall i, lookup now tag w = Ok i ->
     (forall s, name_field i <> JStr s) ->
     contains (lower tag) (lower (strip query)) = false ->
     fst (search_hits now query w) = Raise AttributeError).
Proof.
  intros Hent Hpre.
  assert (Hrun : exists hits w1,
            search_hits now query w =
            search_loop now (lower (strip query)) ((tag, e) :: post) hits w1 /\
            fst (fetch_player now tag w1) = lookup now tag w).
  { unfold search_hits, bind, get_world. rewrite Hent, search_loop_app.
    destruct (@search_loop_spec E now (lower (strip query)) w pre [] w
                (fun _ => eq_refl) Hpre) as [w1 Hw1].
    pose proof (search_loop_lookup now (lower (strip query)) pre [] w tag) as Hl.
    rewrite Hw1 in *. cbn [snd] in Hl.
    eexists. exists w1. split; [reflexivity|exact Hl]. }
  destruct Hrun as (hits & w1 & -> & Hfst).
  split.
  - intros ex Hex. cbn [search_loop]. unfold bind at 1.
    destruct (fetch_player now tag w1) as [r w2]. cbn [fst] in Hfst. subst r.
    now rewrite Hex.
  - intros i Hi Hname Hq. cbn [search_loop]. unfold bind at 1.
    destruct (fetch_player now tag w1) as [r w2]. cbn [fst] in Hfst. subst r.
    rewrite Hi. unfold bind at 1, matches.
    rewrite Hq. fold (name_field i).
    destruct (name_field i) as [| | |s] eqn:En; try reflexivity.
    now contradiction (Hname s).
Qed.

End PagesMore.

(* ================================================================== *)
(** * Instances of the further properties *)

Lemma X2_load_last_row_wins_witness :
  exists d,
    @Gspread.load_entries_from_sheet decimal_numbers duplicate_rows_world =
      (Ok (text_keys d), duplicate_rows_world) /\
    dict_get (lit "#A") d = Some (mkLoaded [lit "y"] (Text (lit "new"))).
Proof.
  assert (H : Forall (fun '(t, r, n) =>
                        @Gspread.number_like decimal_numbers t = false /\
                        (@Gspread.number_like decimal_numbers r = false \/
                         @numeric_zero decimal_numbers r = true))
                [(lit "#A", lit "x", lit "old"); (lit "#A", lit "y", lit "new")]).
  { repeat (apply Forall_cons; [split; [|left]; vm_compute; reflexivity|]).
    apply Forall_nil. }
  destruct (@X2_load_last_row_wins decimal_numbers
              [(lit "#A", lit "x", lit "old"); (lit "#A", lit "y", lit "new")]
              duplicate_rows_world eq_refl H) as (d & Hd & Hget).
  exists d. split; [exact Hd|]. rewrite Hget. by_eval.
Defined.

Lemma X3_load_edges_witness :
  @Gspread.load_entries_from_sheet decimal_numbers headless_world =
    (Raise (KeyError (lit "tag")), headless_world) /\
  @Gspread.load_entries_from_sheet decimal_numbers repeated_header_world =
    (Raise GSpreadException, repeated_header_world).
Proof.
  split.
  - apply (proj2 (proj2 (proj2 (@X3_load_edges decimal_numbers headless_world)))
             [lit "id"; lit "reasons"; lit "note"] [lit "#A"; lit "x"; lit "n"] []).
    + vm_compute. reflexivity.
    + vm_compute. reflexivity.
    + vm_compute. intros H. repeat destruct H as [H|H]; try discriminate H; assumption.
  - apply (proj1 (proj2 (proj2 (@X3_load_edges decimal_numbers
                                  repeated_header_world)))
             [lit "tag"; lit "tag"; lit "note"] [[lit "#A"; lit "x"; lit "n"]]).
    + reflexivity.
    + vm_compute. reflexivity.
Defined.

Lemma X4_store_cycle_witness :
  exists d,
    @Gspread.load_entries_from_sheet decimal_numbers
      (snd (save_entries_to_sheet blank_reason_entries empty_world)) =
    (Ok (as_loaded d), snd (save_entries_to_sheet blank_reason_entries empty_world)) /\
    keys d = keys blank_reason_entries.
Proof.
  assert (Hwf : wf_dict blank_reason_entries) by distinct_keys.
  assert (Ht : @text_cells decimal_numbers blank_reason_entries).
  { unfold text_cells, blank_reason_entries.
    repeat (apply Forall_cons; [repeat split; vm_compute; reflexivity|]).
    apply Forall_nil. }
  assert (Hk : tail_kept blank_reason_entries) by (vm_compute; reflexivity).
  destruct (@X4_store_cycle decimal_numbers blank_reason_entries empty_world
              Hwf Ht Hk)
    as (d & H1 & H2 & _).
  exists d. now split.
Defined.

Lemma X5_edit_saves_witness :
  fst (save_handler (lit "#ABC") [lit "デブ"] (lit "seen") one_entry_world) = Ok tt /\
  dict_get (lit "#ABC")
    (entries (snd (save_handler (lit "#ABC") [lit "デブ"] (lit "seen") one_entry_world))) =
  Some (mkEntry [lit "デブ"] (lit "seen")).
Proof.
  assert (Hv : dict_get (lit "#ABC") (entries one_entry_world) =
               Some (mkEntry [lit "神"] (lit ""))) by by_eval.
  destruct (@X5_edit_saves one_entry_world (lit "#ABC") [lit "デブ"] (lit "seen") _ Hv)
    as (H1 & _ & H3 & _).
  now split.
Defined.


Lemma X8_preview_read_only_witness :
  entries (snd (@create_mode env_404 0 submit_preview one_entry_world)) =
  entries one_entry_world /\
  sheet_calls (snd (@create_mode env_404 0 submit_preview one_entry_world)) = [].
Proof.
  destruct (proj2 (@X8_preview_read_only env_404 0 submit_preview one_entry_world
                     eq_refl) eq_refl) as (H1 & _ & H3 & _).
  split; [exact H1|exact H3].
Defined.

Lemma X9_handlers_keep_keys_witness :
  wf_dict (entries (snd (@add_handler env_200 0 (lit "xyz") [lit "神"] (lit "")
                           one_entry_world))).
Proof.
  assert (Hwf : wf_dict (entries one_entry_world)) by distinct_keys.
  assert (Hm : Forall marked (keys (entries one_entry_world)))
    by (repeat constructor).
  exact (proj1 (proj1 (@X9_handlers_keep_keys env_200 one_entry_world Hwf Hm)
                  0%Z (lit "xyz") [lit "神"] (lit ""))).
Defined.

Lemma X10_cache_sound_witness :
  @cache_sound env_200 (snd (@fetch_player env_200 0 (lit "#ABC") empty_world)).
Proof.
  apply (@X10_cache_sound env_200 0 (lit "#ABC") empty_world). constructor.
Defined.

Lemma X11_fetch_effects_witness :
  @fetch_player env_200 5 (lit "#ABC")
    (snd (@fetch_player env_200 0 (lit "#ABC") one_entry_world)) =
  (Ok bob, snd (@fetch_player env_200 0 (lit "#ABC") one_entry_world)).
Proof.
  apply (@X11_fetch_effects env_200 5 (lit "#ABC")
           (snd (@fetch_player env_200 0 (lit "#ABC") one_entry_world))).
  by_eval.
Defined.

Lemma X12_raw_and_normalized_tag_witness :
  @encode_tag env_200 (@normalize_tag env_200 (lit "abc")) =
  @encode_tag env_200 (lit "abc").
Proof.
  exact (proj1 (@X12_raw_and_normalized_tag env_200 (lit "abc")
                  (ascii_tables_ok (lit "Debu") api_200))).
Defined.

Lemma X13_encode_tag_url_safe_witness :
  forallb url_char (lit "%23A%20B") = true.
Proof.
  exact (proj1 (@X13_encode_tag_url_safe env_404 (lit "a b") (lit "%23A%20B")
                  eq_refl)).
Defined.

Lemma X14_encode_tag_raises_witness :
  @encode_tag env_404 [55296%N] = Raise UnicodeEncodeError.
Proof.
  apply (proj1 (@X14_encode_tag_raises env_404 [55296%N])). by_eval.
Defined.

Lemma X15_test_script_url_witness :
  @encode_tag env_404 test_api_tag = Ok (lit "%2322PORPR98").
Proof.
  exact (proj1 (@X15_test_script_url env_404 test_api_tag eq_refl)).
Defined.

Lemma X16_normalized_is_canonical_witness :
  strip (@normalize_tag env_404 (lit " abc ")) = @normalize_tag env_404 (lit " abc ").
Proof.
  exact (proj1 (@X16_normalized_is_canonical env_404 (lit " abc ")
                  (ascii_tables_ok (lit "Debu") api_404))).
Defined.

Lemma X17_normalize_insensitive_witness :
  @normalize_tag env_404 (hash :: lit "abc") = @normalize_tag env_404 (lit "abc").
Proof.
  apply (proj2 (proj2 (@X17_normalize_insensitive env_404)) (lit "abc")).
  - reflexivity.
  - by_eval.
Defined.

Lemma X18_browse_table_witness :
  exists w',
    @browse_table env_200 0 one_entry_world =
    (Ok [(0, (lit "#ABC", JStr (lit "Bob"), lit "神"))], w').
Proof.
  assert (Hall : forall te, In te (entries one_entry_world) ->
            exists i, @lookup env_200 0 (fst te) one_entry_world = Ok i).
  { intros te [<-|[]]. exists bob. by_eval. }
  destruct (@X18_browse_table env_200 0 one_entry_world Hall) as (w' & Hrun & _).
  exists w'. rewrite Hrun. f_equal.
Defined.

Lemma X19_blank_query_lists_all_witness :
  exists w',
    @search_hits env_200 0 (lit "  ") one_entry_world =
    (Ok [(lit "#ABC", JStr (lit "Bob"), mkEntry [lit "神"] (lit ""))], w').
Proof.
  assert (Hall : forall te, In te (entries one_entry_world) ->
            exists i s, @lookup env_200 0 (fst te) one_entry_world = Ok i /\
                        name_field i = JStr s).
  { intros te [<-|[]]. exists bob, (lit "Bob"). split; by_eval. }
  destruct (@X19_blank_query_lists_all env_200 0 (lit "  ") one_entry_world
              eq_refl Hall) as (w' & Hrun).
  exists w'. rewrite Hrun. f_equal.
Defined.

Lemma X20_search_errors_witness :
  fst (@search_hits env_500 0 (lit "abc") one_entry_world) = Raise (HTTPError 500) /\
  fst (@search_hits env_odd 0 (lit "zzz") one_entry_world) = Raise AttributeError.
Proof.
  split.
  - apply (proj1 (@X20_search_errors env_500 0 (lit "abc") one_entry_world
                    [] [] (lit "#ABC") (mkEntry [lit "神"] (lit ""))
                    eq_refl (fun te (H : In te []) => match H with end))).
    by_eval.
  - apply (proj2 (@X20_search_errors env_odd 0 (lit "zzz") one_entry_world
                    [] [] (lit "#ABC") (mkEntry [lit "神"] (lit ""))
                    eq_refl (fun te (H : In te []) => match H with end))
             odd_profile).
    + by_eval.
    + intros s H. vm_compute in H. discriminate H.
    + by_eval.
Defined.
